(** Shallow embedding of the trading core of upbit_ml_paperbot:
    paper_trader.py, risk_engine.py, position_sizer.py, trade_guard.py and
    the candle builder of realtime_trader.py.

    Conventions of the embedding:
    - Python floats are modelled as exact rationals [Q]; rounding is not modelled.
    - A [datetime] is an integer number of microseconds since the epoch (UTC),
      so [now.date()] is floor division by the length of a day and
      [timedelta(minutes=m)] adds [m * 60 * 10^6].
    - A Python exception (ZeroDivisionError, TypeError on [None]) is [None]
      in an [option] result. *)

From Stdlib Require Import QArith ZArith List String Bool Lia Lqa Sorted.
Import ListNotations.
Open Scope Q_scope.

(** * Python numeric helpers *)

(** [a < b] on floats. *)
Definition Qltb (a b : Q) : bool := negb (Qle_bool b a).

(** Python's [max(a, b)]: keeps [a] unless [b > a]. *)
Definition py_max (a b : Q) : Q := if Qle_bool b a then a else b.

(** Python's [min(a, b)]: keeps [a] unless [b < a]. *)
Definition py_min (a b : Q) : Q := if Qle_bool a b then a else b.

(** Python's [a / b] on floats: raises ZeroDivisionError when [b == 0]. *)
Definition py_div (a b : Q) : option Q := if Qeq_bool b 0 then None else Some (a / b).

(** * paper_trader.py *)
Module Paper.

(** An entry of [self.history]. *)
Inductive Trade :=
| BUY (time : Z) (price qty spend_krw fee balance : Q)
| SELL (time : Z) (price pnl balance : Q) (reason : string).

Record PaperTrader := mkPaper {
  initial_balance : Q;
  balance : Q;
  position : Q;
  entry_price : option Q;
  entry_notional : option Q;
  fee : Q;
  history : list Trade
}.

(** [PaperTrader.__init__]. *)
Definition init (initial_balance fee : Q) : PaperTrader :=
  mkPaper initial_balance initial_balance 0 None None fee [].

Definition can_buy (s : PaperTrader) : bool :=
  Qeq_bool (position s) 0 && Qltb 0 (balance s).

Definition can_sell (s : PaperTrader) : bool := Qltb 0 (position s).

(** [PaperTrader.buy]; [None] is the ZeroDivisionError of [cost / price]. *)
Definition buy (s : PaperTrader) (price : Q) (timestamp : Z) (spend_krw : option Q)
  : option PaperTrader :=
  if negb (can_buy s) then Some s else
  let spend := match spend_krw with None => balance s | Some x => x end in
  let spend := py_max 0 (py_min spend (balance s)) in
  if Qle_bool spend 0 then Some s else
  let fee_paid := spend * fee s in
  let cost := spend - fee_paid in
  match py_div cost price with
  | None => None
  | Some qty =>
      let bal := balance s - spend in
      Some (mkPaper (initial_balance s) bal qty (Some price) (Some spend) (fee s)
              (history s ++ [BUY timestamp price qty spend fee_paid bal]))
  end.

(** [PaperTrader.sell]; [None] is the TypeError of [self.position * None]. *)
Definition sell (s : PaperTrader) (price : Q) (timestamp : Z) (reason : string)
  : option PaperTrader :=
  if negb (can_sell s) then Some s else
  let proceeds := position s * price * (1 - fee s) in
  let entry_notional :=
    match entry_notional s with
    | Some n => Some n
    | None => match entry_price s with Some e => Some (position s * e) | None => None end
    end in
  match entry_notional with
  | None => None
  | Some n =>
      let pnl := proceeds - n in
      let bal := balance s + proceeds in
      Some (mkPaper (initial_balance s) bal 0 None None (fee s)
              (history s ++ [SELL timestamp price pnl bal reason]))
  end.

(** [PaperTrader.check_tp_sl]; [None] is the TypeError of [None * (1 + tp)]. *)
Definition check_tp_sl (s : PaperTrader) (high low : Q) (timestamp : Z) (tp sl : Q)
  : option PaperTrader :=
  if negb (can_sell s) then Some s else
  match entry_price s with
  | None => None
  | Some e =>
      let tp_price := e * (1 + tp) in
      let sl_price := e * (1 - sl) in
      let tp_hit := Qle_bool tp_price high in
      let sl_hit := Qle_bool low sl_price in
      if tp_hit && sl_hit then sell s sl_price timestamp "SL_TIE"
      else if tp_hit then sell s tp_price timestamp "TP"
      else if sl_hit then sell s sl_price timestamp "SL"
      else Some s
  end.

(** A call on the ledger, with its arguments. *)
Inductive Op :=
| OpBuy (price : Q) (timestamp : Z) (spend_krw : option Q)
| OpSell (price : Q) (timestamp : Z) (reason : string)
| OpCheck (high low : Q) (timestamp : Z) (tp sl : Q).

Definition step (s : PaperTrader) (o : Op) : option PaperTrader :=
  match o with
  | OpBuy p t x => buy s p t x
  | OpSell p t r => sell s p t r
  | OpCheck h l t tp sl => check_tp_sl s h l t tp sl
  end.

(** The calls made in order; an exception stops the run. *)
Fixpoint run (s : PaperTrader) (ops : list Op) : option PaperTrader :=
  match ops with
  | [] => Some s
  | o :: ops' => match step s o with Some s' => run s' ops' | None => None end
  end.

(** The AccountState invariant of the spec: [positionQty >= 0],
    [balance >= 0], and [positionQty > 0] iff [entryPrice] is set iff
    [entryNotional] is set. *)
Definition account_inv (s : PaperTrader) : Prop :=
  0 <= balance s /\ 0 <= position s /\
  (0 < position s <-> entry_price s <> None) /\
  (entry_price s <> None <-> entry_notional s <> None).

(** Every price passed to the call is positive. *)
Definition prices_pos (o : Op) : Prop :=
  match o with
  | OpBuy p _ _ => 0 < p
  | OpSell p _ _ => 0 < p
  | OpCheck h l _ _ _ => 0 < h /\ 0 < l
  end.

(** Positive prices, and a take-profit fraction [tp >= -1] in [check_tp_sl]. *)
Definition op_ok (o : Op) : Prop :=
  prices_pos o /\ match o with OpCheck _ _ _ tp _ => -1 <= tp | _ => True end.

End Paper.

(** * Datetimes *)

Definition US_PER_MINUTE : Z := 60000000.
Definition US_PER_DAY : Z := 86400000000.

(** [now.date()], as a day number. *)
Definition date (now : Z) : Z := Z.div now US_PER_DAY.

(** [now + timedelta(minutes=m)]. *)
Definition add_minutes (now m : Z) : Z := (now + m * US_PER_MINUTE)%Z.

(** * risk_engine.py *)
Module Risk.

Record RiskEngine := mkRisk {
  max_daily_loss_pct : Q;
  max_consecutive_losses : Z;
  cooldown_minutes : Z;
  start_of_day_balance : option Q;
  current_day : option Z;
  consecutive_losses : Z;
  cooldown_until : option Z
}.

(** [RiskEngine.__init__]. *)
Definition init (max_daily_loss_pct : Q) (max_consecutive_losses cooldown_minutes : Z)
  : RiskEngine :=
  mkRisk max_daily_loss_pct max_consecutive_losses cooldown_minutes None None 0 None.

(** Methods of the engine run in a state and exception monad: the result is
    [None] when the method raises, and the state is the engine as left by
    the mutations made before the exception. *)
Definition M (A : Type) : Type := RiskEngine -> option A * RiskEngine.

Definition ret {A} (a : A) : M A := fun s => (Some a, s).
Definition bind {A B} (m : M A) (k : A -> M B) : M B :=
  fun s => match m s with
           | (Some a, s') => k a s'
           | (None, s') => (None, s')
           end.
Definition get : M RiskEngine := fun s => (Some s, s).
Definition put (s : RiskEngine) : M unit := fun _ => (Some tt, s).
Definition lift {A} (o : option A) : M A := fun s => (o, s).

Notation "x <- m ;; k" := (bind m (fun x => k)) (at level 61, m at next level, right associativity).
Notation "m ;;; k" := (bind m (fun _ => k)) (at level 61, right associativity).

Definition with_day (s : RiskEngine) (sob : Q) (day : Z) (losses : Z) (cd : option Z)
  : RiskEngine :=
  mkRisk (max_daily_loss_pct s) (max_consecutive_losses s) (cooldown_minutes s)
         (Some sob) (Some day) losses cd.

Definition with_streak (s : RiskEngine) (losses : Z) (cd : option Z) : RiskEngine :=
  mkRisk (max_daily_loss_pct s) (max_consecutive_losses s) (cooldown_minutes s)
         (start_of_day_balance s) (current_day s) losses cd.

(** The state written by [_reset_day]. *)
Definition reset_state (s : RiskEngine) (balance : Q) (now : Z) : RiskEngine :=
  with_day s balance (date now) 0 None.

Definition _reset_day (balance : Q) (now : Z) : M unit :=
  s <- get ;; put (reset_state s balance now).

(** [self.current_day != now.date()]. *)
Definition day_differs (cur : option Z) (d : Z) : bool :=
  match cur with Some x => negb (Z.eqb x d) | None => true end.

Definition _check_new_day (balance : Q) (now : Z) : M unit :=
  s <- get ;;
  if day_differs (current_day s) (date now) then _reset_day balance now else ret tt.

Definition daily_loss_pct (balance : Q) : M Q :=
  s <- get ;;
  match start_of_day_balance s with
  | None => ret 0
  | Some sob => q <- lift (py_div (sob - balance) sob) ;; ret (q * 100)
  end.

Definition daily_loss_exceeded (balance : Q) : M bool :=
  s <- get ;;
  p <- daily_loss_pct balance ;;
  ret (Qle_bool (max_daily_loss_pct s) p).

Definition record_trade_result (pnl : Q) (now : Z) : M unit :=
  s <- get ;;
  let losses := if Qltb pnl 0 then (consecutive_losses s + 1)%Z else 0%Z in
  let cd := if Z.leb (max_consecutive_losses s) losses
            then Some (add_minutes now (cooldown_minutes s))
            else cooldown_until s in
  put (with_streak s losses cd).

Definition in_cooldown (now : Z) : M bool :=
  s <- get ;;
  ret (match cooldown_until s with Some c => Z.ltb now c | None => false end).

Definition can_trade (balance : Q) (now : Z) : M bool :=
  s <- get ;;
  (match current_day s with None => _reset_day balance now | Some _ => ret tt end) ;;;
  _check_new_day balance now ;;;
  ex <- daily_loss_exceeded balance ;;
  if ex then ret false else
  cd <- in_cooldown now ;;
  if cd then ret false else ret true.

(** [record_trade_result(pnl, now)] called once per [(pnl, now)], in order. *)
Definition record_all (s : RiskEngine) (rs : list (Q * Z)) : RiskEngine :=
  fold_left (fun s' '(pnl, now) => snd (record_trade_result pnl now s')) rs s.

End Risk.

(** * position_sizer.py *)
Module Sizer.

Record PositionSizeResult := mkResult {
  krw_to_spend : Q;
  qty : option Q;
  stop_price : option Q;
  risk_krw : Q
}.

Record PositionSizer := mkSizer {
  risk_per_trade_pct : Q;
  max_allocation_pct : Q;
  min_order_krw : Q;
  fee_roundtrip_pct : Q
}.

(** [PositionSizer()] with its default arguments. *)
Definition default_sizer : PositionSizer := mkSizer (30 # 100) 10 5000 (10 # 100).

Definition zero_result : PositionSizeResult := mkResult 0 None None 0.

Definition _clamp (x lo hi : Q) : Q := py_max lo (py_min hi x).

(** [1e-9]. *)
Definition tiny : Q := 1 # 1000000000.

(** [equity * risk / 100 / max(stop + fee / 100, 1e-9)], before the clamp. *)
Definition unclamped (p : PositionSizer) (equity stop_pct : Q) : Q :=
  (equity * (risk_per_trade_pct p / 100)) / py_max (stop_pct + fee_roundtrip_pct p / 100) tiny.

Definition size_from_stop_pct (p : PositionSizer) (equity_krw stop_pct : Q) (price : option Q)
  : option PositionSizeResult :=
  if Qle_bool stop_pct 0 then Some zero_result else
  let risk_budget_krw := equity_krw * (risk_per_trade_pct p / 100) in
  let fee_component := fee_roundtrip_pct p / 100 in
  let risk_per_invested := stop_pct + fee_component in
  match py_div risk_budget_krw (py_max risk_per_invested tiny) with
  | None => None
  | Some k =>
      let cap := equity_krw * (max_allocation_pct p / 100) in
      let k := _clamp k 0 cap in
      if Qltb k (min_order_krw p) then Some zero_result else
      match price with
      | None => Some (mkResult k None None risk_budget_krw)
      | Some pr =>
          match py_div (k * (1 - fee_component)) pr with
          | None => None
          | Some q => Some (mkResult k (Some q) (Some (pr * (1 - stop_pct))) (k * risk_per_invested))
          end
      end
  end.

Definition size_from_atr_pct (p : PositionSizer) (equity_krw atr_pct stop_atr_mult : Q)
  (price : option Q) : option PositionSizeResult :=
  size_from_stop_pct p equity_krw (atr_pct * stop_atr_mult) price.

(** The [krw_to_spend] field of the result, as computed by
    [size_from_stop_pct] when it does not raise. *)
Definition spend_amount (p : PositionSizer) (equity_krw stop_pct : Q) : Q :=
  if Qle_bool stop_pct 0 then 0 else
  let k := _clamp (unclamped p equity_krw stop_pct) 0 (equity_krw * (max_allocation_pct p / 100)) in
  if Qltb k (min_order_krw p) then 0 else k.

(** The sizer [p] with [risk_per_trade_pct] replaced by [r]. *)
Definition with_risk (p : PositionSizer) (r : Q) : PositionSizer :=
  mkSizer r (max_allocation_pct p) (min_order_krw p) (fee_roundtrip_pct p).

End Sizer.

(** * trade_guard.py *)
Module Guard.
Import Risk Sizer.

Record TradeDecision := mkDecision {
  allowed : bool;
  reason : string;
  sizing : option PositionSizeResult
}.

(** [TradeGuard.evaluate_entry], run on the state of the guard's RiskEngine. *)
Definition evaluate_entry (sizer : PositionSizer) (equity_krw : Q) (now : Z) (price : Q)
  (stop_pct atr_pct : option Q) (stop_atr_mult : Q) : M TradeDecision :=
  ok <- can_trade equity_krw now ;;
  if negb ok then ret (mkDecision false "risk_gate_blocked" None) else
  let decide (sizing : option PositionSizeResult) : M TradeDecision :=
    sz <- lift sizing ;;
    if Qle_bool (krw_to_spend sz) 0 then ret (mkDecision false "size_zero_or_below_min" None)
    else ret (mkDecision true "ok" (Some sz)) in
  match stop_pct with
  | Some sp => decide (size_from_stop_pct sizer equity_krw sp (Some price))
  | None =>
      match atr_pct with
      | Some a => decide (size_from_atr_pct sizer equity_krw a stop_atr_mult (Some price))
      | None => ret (mkDecision false "no_stop_defined" None)
      end
  end.

End Guard.

(** * CandleBuilder5m of realtime_trader.py *)
Module Candles.

Record Candle := mkCandle {
  time : Z;
  open : Q;
  high : Q;
  low : Q;
  close : Q;
  volume : Q
}.

(** [self.current], a [defaultdict(lambda: None)] keyed by market. *)
Definition Builder := string -> option Candle.

Definition empty : Builder := fun _ => None.

Definition set (b : Builder) (m : string) (c : Candle) : Builder :=
  fun m' => if String.eqb m' m then Some c else b m'.

Definition US_PER_5MIN : Z := 300000000.

(** [_bucket]: minute floored to a multiple of 5, seconds and microseconds
    zeroed; hours start on multiples of 5 minutes, so this is the floor of the
    timestamp to a 5-minute boundary. *)
Definition _bucket (dt : Z) : Z := (Z.div dt US_PER_5MIN * US_PER_5MIN)%Z.

(** [update_trade]: returns [(closed, current)] and the new [self.current].
    [tms_ms] milliseconds are [tms_ms * 1000] microseconds. *)
Definition update_trade (b : Builder) (market : string) (price vol : Q) (tms_ms : Z)
  : (option Candle * Candle) * Builder :=
  let bucket := _bucket (tms_ms * 1000) in
  match b market with
  | Some cur =>
      if Z.eqb (time cur) bucket then
        let cur' := mkCandle (time cur) (open cur) (py_max (high cur) price)
                      (py_min (low cur) price) price (volume cur + vol) in
        ((None, cur'), set b market cur')
      else
        let c := mkCandle bucket price price price price vol in
        ((Some cur, c), set b market c)
  | None =>
      let c := mkCandle bucket price price price price vol in
      ((None, c), set b market c)
  end.

(** A trade tick: market, price, volume, timestamp in milliseconds. *)
Record Tick := mkTick { t_market : string; t_price : Q; t_vol : Q; t_ms : Z }.

(** Feeds the ticks in order; returns every [(closed, current)] pair returned
    and the final builder. *)
Fixpoint feed (b : Builder) (ts : list Tick) : list (option Candle * Candle) * Builder :=
  match ts with
  | [] => ([], b)
  | t :: ts' =>
      let '(out, b') := update_trade b (t_market t) (t_price t) (t_vol t) (t_ms t) in
      let '(outs, b'') := feed b' ts' in
      (out :: outs, b'')
  end.

(** The closed candles emitted, in order. *)
Definition closed_candles (outs : list (option Candle * Candle)) : list Candle :=
  flat_map (fun o => match fst o with Some c => [c] | None => [] end) outs.

Definition ohlc_ok (c : Candle) : Prop :=
  low c <= open c /\ open c <= high c /\ low c <= close c /\ close c <= high c.

End Candles.

(** * max_drawdown_pct of backtest_replay.py *)
Module Replay.

(** The [for e in equity_curve] loop, from the running [peak] and [mdd]. *)
Fixpoint mdd_loop (peak mdd : Q) (curve : list Q) : Q :=
  match curve with
  | [] => mdd
  | e :: curve' =>
      let peak := if Qltb peak e then e else peak in
      let dd := if Qltb 0 peak then (peak - e) / peak * 100 else 0 in
      let mdd := if Qltb mdd dd then dd else mdd in
      mdd_loop peak mdd curve'
  end.

Definition max_drawdown_pct (equity_curve : list Q) : Q :=
  match equity_curve with
  | [] => 0
  | e0 :: _ => mdd_loop e0 0 equity_curve
  end.

End Replay.

(** * PerformanceDashboard.max_drawdown of performance_dashboard.py *)
Module Dashboard.
Import Paper.

(** [sells["balance"].values]: the balances of the SELL records, in order. *)
Definition sell_balances (history : list Trade) : list Q :=
  flat_map (fun t => match t with SELL _ _ _ b _ => [b] | BUY _ _ _ _ _ _ => [] end) history.

(** The loop over numpy floats.  [max_dd] is [None] once it is [inf]: with
    [peak == 0], [(peak - v) / peak] is [nan] when [v == 0], which
    [max(max_dd, nan)] ignores, and [inf] when [v < 0], which it keeps. *)
Fixpoint dash_loop (peak : Q) (max_dd : option Q) (equity : list Q) : option Q :=
  match equity with
  | [] => max_dd
  | v :: equity' =>
      let peak := py_max peak v in
      let max_dd :=
        if Qeq_bool peak 0 then (if Qeq_bool v 0 then max_dd else None)
        else
          let dd := (peak - v) / peak * 100 in
          match max_dd with Some m => Some (py_max m dd) | None => None end in
      dash_loop peak max_dd equity'
  end.

(** [max_drawdown]; [None] is [inf]. *)
Definition max_drawdown (history : list Trade) : option Q :=
  match sell_balances history with
  | [] => Some 0
  | v0 :: _ => dash_loop v0 (Some 0) (sell_balances history)
  end.

End Dashboard.

(** * create_tp_sl_labels of tp_sl_labeling.py *)
Module Labels.

(** A row of the frame, with the columns the labelling reads. *)
Record Bar := mkBar { b_time : Z; b_close : Q; b_high : Q; b_low : Q }.

(** [np.where(mask)[0][0]] when the mask has a true entry. *)
Fixpoint first_index {A} (p : A -> bool) (l : list A) : option nat :=
  match l with
  | [] => None
  | x :: l' => if p x then Some 0%nat else option_map S (first_index p l')
  end.

(** The label of an entry at [entry] followed by the bars [window]; [None]
    is [np.nan]. *)
Definition label_of (entry tp sl : Q) (window : list Bar) : option Z :=
  let tp_price := entry * (1 + tp) in
  let sl_price := entry * (1 - sl) in
  let tp_first := first_index (fun x => Qle_bool tp_price (b_high x)) window in
  let sl_first := first_index (fun x => Qle_bool (b_low x) sl_price) window in
  match tp_first, sl_first with
  | None, None => None
  | _, None => Some 1%Z
  | Some t, Some s => if Nat.ltb t s then Some 1%Z else Some 0%Z
  | None, Some _ => Some 0%Z
  end.

(** [highs[i + 1 : i + 1 + max_holding]] as bars. *)
Definition window (bars : list Bar) (max_holding i : nat) : list Bar :=
  firstn max_holding (skipn (S i) bars).

(** The label row [i] gets with a look-ahead of [max_holding] bars. *)
Definition label_at (bars : list Bar) (tp sl : Q) (max_holding i : nat) : option Z :=
  match nth_error bars i with
  | None => None
  | Some b => label_of (b_close b) tp sl (window bars max_holding i)
  end.

(** Python's bound of a slice [l[start:stop]]: a negative index counts from
    the end, and the result is clamped to [0, len(l)]. *)
Definition slice_index (len : nat) (k : Z) : nat :=
  if (k <? 0)%Z then Z.to_nat (Z.of_nat len + k) else Nat.min (Z.to_nat k) len.

(** [l[start:stop]]; numpy arrays slice the same way. *)
Definition py_slice {A} (l : list A) (start stop : Z) : list A :=
  let a := slice_index (List.length l) start in
  let b := slice_index (List.length l) stop in
  firstn (b - a) (skipn a l).

(** [labels[i] = v]; the loop reads [closes[i]] first, so [i] is in range
    whenever this runs. *)
Fixpoint replace_nth {A} (l : list A) (i : nat) (x : A) : list A :=
  match l, i with
  | [], _ => []
  | _ :: l', O => x :: l'
  | y :: l', S i' => y :: replace_nth l' i' x
  end.

(** The body of [for i in range(len(df) - max_holding - 1)], run on the
    indices [is]; [None] is the [IndexError] of [closes[i]] past the end. *)
Fixpoint label_loop (bars : list Bar) (tp sl : Q) (max_holding : Z)
    (labels : list (option Z)) (is : list nat) : option (list (option Z)) :=
  match is with
  | [] => Some labels
  | i :: is' =>
      match nth_error bars i with
      | None => None
      | Some b =>
          let future := py_slice bars (Z.of_nat i + 1) (Z.of_nat i + 1 + max_holding) in
          match label_of (b_close b) tp sl future with
          | None => label_loop bars tp sl max_holding labels is'
          | Some l => label_loop bars tp sl max_holding (replace_nth labels i (Some l)) is'
          end
      end
  end.

(** [df.dropna(subset=["label"])]: the labelled rows, in order. *)
Fixpoint keep_labelled (bars : list Bar) (labels : list (option Z)) : list (Bar * Z) :=
  match bars, labels with
  | b :: bars', Some l :: labels' => (b, l) :: keep_labelled bars' labels'
  | _ :: bars', None :: labels' => keep_labelled bars' labels'
  | _, _ => []
  end.

(** [create_tp_sl_labels]: [labels] starts as [np.full(len(df), np.nan)];
    [range] of a negative bound is empty. *)
Definition create_tp_sl_labels (bars : list Bar) (tp sl : Q) (max_holding : Z)
  : option (list (Bar * Z)) :=
  let n := (Z.of_nat (List.length bars) - max_holding - 1)%Z in
  match label_loop bars tp sl max_holding (repeat None (List.length bars))
                   (seq 0 (Z.to_nat n)) with
  | Some labels => Some (keep_labelled bars labels)
  | None => None
  end.

(** Holding a position over [window]: [check_tp_sl] on each bar in turn. *)
Fixpoint hold (s : Paper.PaperTrader) (tp sl : Q) (window : list Bar)
  : option Paper.PaperTrader :=
  match window with
  | [] => Some s
  | x :: w =>
      match Paper.check_tp_sl s (b_high x) (b_low x) (b_time x) tp sl with
      | Some s' => hold s' tp sl w
      | None => None
      end
  end.

End Labels.

(** * The replay loop of backtest_replay.py and RealtimePaperBot of
    realtime_trader.py *)
Module Bot.
Import Paper Risk Sizer Guard Candles.

(** [next(h for h in reversed(history) if h["type"] == "SELL")]: the pnl of
    the last SELL record, if any. *)
Fixpoint last_sell_pnl (h : list Trade) : option Q :=
  match h with
  | [] => None
  | t :: h' =>
      match last_sell_pnl h' with
      | Some p => Some p
      | None => match t with SELL _ _ pnl _ _ => Some pnl | BUY _ _ _ _ _ _ => None end
      end
  end.

(** [history.append(candle)] followed by [history.pop(0)] when the list is
    longer than [history_len]; also [deque(maxlen=history_len).append]. *)
Definition push_window (history_len : nat) (w : list Candle) (c : Candle) : list Candle :=
  let w := w ++ [c] in
  if Nat.ltb history_len (List.length w) then tl w else w.

(** [PositionSizer(risk_per_trade_pct=0.30, max_allocation_pct=10.0)]. *)
Definition bot_sizer : PositionSizer :=
  mkSizer (30 # 100) 10 (min_order_krw default_sizer) (fee_roundtrip_pct default_sizer).

(** [RiskEngine(max_daily_loss_pct=3.0, max_consecutive_losses=3, cooldown_minutes=60)]. *)
Definition bot_risk : RiskEngine := Risk.init 3 3 60.

(** The exit block: [check_tp_sl] on an open position and, when it closed,
    [record_trade_result] of the last SELL's pnl. *)
Definition manage_exit (p : PaperTrader) (rk : RiskEngine) (c : Candle) (tp sl : Q)
  : option (PaperTrader * RiskEngine) :=
  match check_tp_sl p (high c) (low c) (time c) tp sl with
  | None => None
  | Some p' =>
      if negb (can_sell p') then
        match last_sell_pnl (history p') with
        | Some pnl => Some (p', snd (record_trade_result pnl (time c) rk))
        | None => Some (p', rk)
        end
      else Some (p', rk)
  end.

(** The entry block once the probability [proba] reached the threshold:
    [guard.evaluate_entry(equity_krw=paper.balance, now, price=close,
    stop_pct=sl)] and [paper.buy] of the sizing when allowed; returns
    whether a buy was made. *)
Definition try_entry (p : PaperTrader) (rk : RiskEngine) (c : Candle) (sl : Q)
  : option (PaperTrader * RiskEngine * bool) :=
  match evaluate_entry bot_sizer (balance p) (time c) (close c) (Some sl) None 1 rk with
  | (None, _) => None
  | (Some d, rk') =>
      if allowed d then
        match sizing d with
        | Some sz =>
            match buy p (close c) (time c) (Some (krw_to_spend sz)) with
            | Some p' => Some (p', rk', true)
            | None => None
            end
        | None => Some (p, rk', false)
        end
      else Some (p, rk', false)
  end.

(** [paper.balance], plus the position valued at the close net of the fee
    when one is open. *)
Definition marked_equity (p : PaperTrader) (c : Candle) : Q :=
  if can_sell p then balance p + position p * close c * (1 - fee p) else balance p.

Section Replay.

(** [build_feature_row] followed by [model.predict]: [None] when no feature
    row can be built. *)
Variable predict : list Candle -> option Q.
Variables (entry_threshold tp sl : Q) (history_len : nat).

Record ReplayState := mkReplay {
  r_paper : PaperTrader;
  r_risk : RiskEngine;
  r_history : list Candle;
  r_equity : list Q
}.

Definition replay_init (initial_balance : Q) : ReplayState :=
  mkReplay (Paper.init initial_balance (1 # 1000)) bot_risk [] [].

(** One iteration of the [for row in df.itertuples()] loop. *)
Definition replay_step (st : ReplayState) (c : Candle) : option ReplayState :=
  let hist := push_window history_len (r_history st) c in
  let exited :=
    if can_sell (r_paper st) then manage_exit (r_paper st) (r_risk st) c tp sl
    else Some (r_paper st, r_risk st) in
  match exited with
  | None => None
  | Some (p, rk) =>
      let entered :=
        if can_buy p then
          match predict hist with
          | None => Some (p, rk)
          | Some proba =>
              if Qle_bool entry_threshold proba then
                match try_entry p rk c sl with
                | Some (p', rk', _) => Some (p', rk')
                | None => None
                end
              else Some (p, rk)
          end
        else Some (p, rk) in
      match entered with
      | None => None
      | Some (p, rk) => Some (mkReplay p rk hist (r_equity st ++ [marked_equity p c]))
      end
  end.

Fixpoint replay_run (st : ReplayState) (cs : list Candle) : option ReplayState :=
  match cs with
  | [] => Some st
  | c :: cs' => match replay_step st c with Some st' => replay_run st' cs' | None => None end
  end.

End Replay.

Section Realtime.

(** [_make_realtime_features] followed by [_predict_proba]: [None] when no
    feature row is available. *)
Variable predict : string -> list Candle -> option Q.

Definition ENTRY_THRESHOLD : Q := 60 # 100.
Definition TP_PCT : Q := 15 # 1000.
Definition SL_PCT : Q := 9 # 1000.
Definition HISTORY_LEN : nat := 600.

Record RealtimeBot := mkBot {
  b_risk : RiskEngine;
  b_paper : PaperTrader;
  b_builder : Builder;
  (** [self.history]: the deques of the subscribed markets. *)
  b_history : string -> option (list Candle);
  open_market : option string;
  open_tp : option Q;
  open_sl : option Q
}.

Definition MARKETS : list string := ["KRW-BTC"%string].

Definition bot_init : RealtimeBot :=
  mkBot bot_risk (Paper.init 1000000 (1 # 1000)) empty
        (fun m => if existsb (String.eqb m) MARKETS then Some [] else None)
        None None None.

(** [x or default] on an optional float: [None] and [0.0] are falsy. *)
Definition or_default (x : option Q) (d : Q) : Q :=
  match x with Some v => if Qeq_bool v 0 then d else v | None => d end.

(** [on_candle_close(market, candle)]; [self.history[market]] raises
    KeyError for a market that is not subscribed. *)
Definition on_candle_close (bot : RealtimeBot) (market : string) (c : Candle)
  : option RealtimeBot :=
  match b_history bot market with None => None | Some w =>
  let hist := fun m => if String.eqb m market
                       then Some (push_window HISTORY_LEN w c) else b_history bot m in
  let managed :=
    if (match open_market bot with Some m => String.eqb m market | None => false end)
       && can_sell (b_paper bot) then
      match check_tp_sl (b_paper bot) (high c) (low c) (time c)
              (or_default (open_tp bot) TP_PCT) (or_default (open_sl bot) SL_PCT) with
      | None => None
      | Some p' =>
          if negb (can_sell p') then
            let rk := match last_sell_pnl (history p') with
                      | Some pnl => snd (record_trade_result pnl (time c) (b_risk bot))
                      | None => b_risk bot
                      end in
            Some (mkBot rk p' (b_builder bot) hist None None None)
          else Some (mkBot (b_risk bot) p' (b_builder bot) hist
                           (open_market bot) (open_tp bot) (open_sl bot))
      end
    else Some (mkBot (b_risk bot) (b_paper bot) (b_builder bot) hist
                     (open_market bot) (open_tp bot) (open_sl bot)) in
  match managed with
  | None => None
  | Some bot =>
      if negb (can_buy (b_paper bot)) then Some bot else
      match predict market (match b_history bot market with Some w => w | None => [] end) with
      | None => Some bot
      | Some proba =>
          if Qltb proba ENTRY_THRESHOLD then Some bot else
          match evaluate_entry bot_sizer (balance (b_paper bot)) (time c) (close c)
                  (Some SL_PCT) None 1 (b_risk bot) with
          | (None, _) => None
          | (Some d, rk) =>
              match allowed d, sizing d with
              | true, Some sz =>
                  match buy (b_paper bot) (close c) (time c) (Some (krw_to_spend sz)) with
                  | None => None
                  | Some p' => Some (mkBot rk p' (b_builder bot) (b_history bot)
                                           (Some market) (Some TP_PCT) (Some SL_PCT))
                  end
              | _, _ => Some (mkBot rk (b_paper bot) (b_builder bot) (b_history bot)
                                    (open_market bot) (open_tp bot) (open_sl bot))
              end
          end
      end
  end
  end.

(** [handle_trade_message] on a parsed message [(cd, tp, tv, tms)]. *)
Definition handle_trade_message (bot : RealtimeBot) (t : Tick) : option RealtimeBot :=
  let '((closed, _), b') := update_trade (b_builder bot) (t_market t) (t_price t) (t_vol t) (t_ms t) in
  let bot := mkBot (b_risk bot) (b_paper bot) b' (b_history bot)
                   (open_market bot) (open_tp bot) (open_sl bot) in
  match closed with
  | Some c => on_candle_close bot (t_market t) c
  | None => Some bot
  end.

Fixpoint handle_all (bot : RealtimeBot) (ts : list Tick) : option RealtimeBot :=
  match ts with
  | [] => Some bot
  | t :: ts' => match handle_trade_message bot t with
                | Some bot' => handle_all bot' ts'
                | None => None
                end
  end.

End Realtime.

End Bot.

(** * Facts on the Python numeric helpers *)

Lemma Qltb_spec a b : Qltb a b = true <-> a < b.
Proof.
  unfold Qltb. rewrite negb_true_iff. split.
  - intros H. apply Qnot_le_lt. intros H'. apply Qle_bool_iff in H'. congruence.
  - intros H. destruct (Qle_bool b a) eqn:E; [|reflexivity].
    apply Qle_bool_iff in E. exfalso. apply (Qlt_not_le _ _ H E).
Qed.

Lemma Qltb_false a b : Qltb a b = false <-> b <= a.
Proof.
  unfold Qltb. rewrite negb_false_iff. apply Qle_bool_iff.
Qed.

Lemma Qle_bool_false a b : Qle_bool a b = false <-> b < a.
Proof.
  split.
  - intros H. apply Qnot_le_lt. intros H'. apply Qle_bool_iff in H'. congruence.
  - intros H. destruct (Qle_bool a b) eqn:E; [|reflexivity].
    apply Qle_bool_iff in E. exfalso. apply (Qlt_not_le _ _ H E).
Qed.

Ltac qbool :=
  repeat match goal with
  | H : Qle_bool _ _ = true |- _ => apply Qle_bool_iff in H
  | H : Qle_bool _ _ = false |- _ => apply Qle_bool_false in H
  | H : Qltb _ _ = true |- _ => apply Qltb_spec in H
  | H : Qltb _ _ = false |- _ => apply Qltb_false in H
  | H : Qeq_bool _ _ = true |- _ => apply Qeq_bool_iff in H
  | H : Qeq_bool _ _ = false |- _ => apply Qeq_bool_neq in H
  end.

Lemma py_min_le_r a b : py_min a b <= b.
Proof. unfold py_min. destruct (Qle_bool a b) eqn:E; qbool; lra. Qed.

Lemma py_max_le a b c : a <= c -> b <= c -> py_max a b <= c.
Proof. unfold py_max. destruct (Qle_bool b a); auto. Qed.

(** * Properties of the ledger *)
Module PaperProofs.
Import Paper.

Lemma can_sell_pos s : 0 < position s -> can_sell s = true.
Proof. intros H. unfold can_sell. apply Qltb_spec. exact H. Qed.

Lemma can_sell_flat s : position s == 0 -> can_sell s = false.
Proof. intros H. unfold can_sell. apply Qltb_false. lra. Qed.

Lemma can_buy_long s : 0 < position s -> can_buy s = false.
Proof.
  intros H. unfold can_buy.
  destruct (Qeq_bool (position s) 0) eqn:E; [|reflexivity].
  qbool. lra.
Qed.

(** A sell from a Long state with a known entry appends a SELL record with
    the given price and reason and leaves the ledger Flat. *)
Lemma sell_long s price ts reason :
  0 < position s -> entry_price s <> None ->
  exists pnl,
    sell s price ts reason =
      Some (mkPaper (initial_balance s) (balance s + position s * price * (1 - fee s)) 0
              None None (fee s)
              (history s ++ [SELL ts price pnl (balance s + position s * price * (1 - fee s)) reason])).
Proof.
  intros Hp He. unfold sell. rewrite (can_sell_pos s Hp). simpl.
  destruct (entry_notional s) as [n|].
  - eexists. reflexivity.
  - destruct (entry_price s) as [e|]; [|congruence]. eexists. reflexivity.
Qed.

(** C1: on a Long position with entry price [E], a bar whose high reaches the
    take-profit price and whose low reaches the stop price closes the
    position by [sell] at exactly the stop price [E * (1 - sl)] with reason
    "SL_TIE" (no close price enters the computation); with [E = 100],
    [tp = 0.015], [sl = 0.009], [high = 102], [low = 99] the fill price is
    [99.1]. *)
Theorem check_tp_sl_tie_sells_at_stop :
  (forall s E high low ts tp sl,
     0 < position s -> entry_price s = Some E ->
     E * (1 + tp) <= high -> low <= E * (1 - sl) ->
     check_tp_sl s high low ts tp sl = sell s (E * (1 - sl)) ts "SL_TIE" /\
     exists s' pnl,
       check_tp_sl s high low ts tp sl = Some s' /\
       position s' = 0 /\
       history s' = history s ++ [SELL ts (E * (1 - sl)) pnl (balance s') "SL_TIE"]) /\
  (forall s ts,
     0 < position s -> entry_price s = Some 100 ->
     exists s' pnl,
       check_tp_sl s 102 99 ts (15 # 1000) (9 # 1000) = Some s' /\
       history s' = history s ++ [SELL ts (100 * (1 - (9 # 1000))) pnl (balance s') "SL_TIE"] /\
       100 * (1 - (9 # 1000)) == 991 # 10).
Proof.
  assert (Hgen : forall s E high low ts tp sl,
     0 < position s -> entry_price s = Some E ->
     E * (1 + tp) <= high -> low <= E * (1 - sl) ->
     check_tp_sl s high low ts tp sl = sell s (E * (1 - sl)) ts "SL_TIE" /\
     exists s' pnl,
       check_tp_sl s high low ts tp sl = Some s' /\
       position s' = 0 /\
       history s' = history s ++ [SELL ts (E * (1 - sl)) pnl (balance s') "SL_TIE"]).
  { intros s E high low ts tp sl Hp He Htp Hsl.
    assert (Hc : check_tp_sl s high low ts tp sl = sell s (E * (1 - sl)) ts "SL_TIE").
    { unfold check_tp_sl. rewrite (can_sell_pos s Hp), He. simpl.
      apply Qle_bool_iff in Htp. apply Qle_bool_iff in Hsl.
      rewrite Htp, Hsl. reflexivity. }
    split; [exact Hc|].
    destruct (sell_long s (E * (1 - sl)) ts "SL_TIE" Hp) as [pnl Hs]; [congruence|].
    rewrite Hc, Hs. eexists; exists pnl. split; [reflexivity|]. split; reflexivity. }
  split; [exact Hgen|].
  intros s ts Hp He.
  destruct (Hgen s 100 102 99 ts (15 # 1000) (9 # 1000) Hp He) as [_ [s' [pnl [H1 [_ H2]]]]];
    [vm_compute; discriminate | vm_compute; discriminate |].
  exists s', pnl. split; [exact H1|]. split; [exact H2|]. reflexivity.
Qed.

(** C8: [buy] while Long and [sell] while Flat are no-ops: the ledger
    (balance, position, entry price and notional, history) is returned
    unchanged and no exception is raised. *)
Theorem buy_long_sell_flat_noop :
  (forall s price ts spend, 0 < position s -> buy s price ts spend = Some s) /\
  (forall s price ts reason, position s == 0 -> sell s price ts reason = Some s).
Proof.
  split.
  - intros s price ts spend Hp. unfold buy. rewrite (can_buy_long s Hp). reflexivity.
  - intros s price ts reason Hp. unfold sell. rewrite (can_sell_flat s Hp). reflexivity.
Qed.

(** C10: [buy] with the spend amount omitted, while Flat with a positive
    balance and a positive price, spends the whole balance: the entry
    notional is the former balance, the balance becomes 0 and the position
    is [balance * (1 - fee) / price]. *)
Theorem buy_default_spends_all s price ts :
  position s == 0 -> 0 < balance s -> 0 < price ->
  exists s',
    buy s price ts None = Some s' /\
    entry_notional s' = Some (balance s) /\
    entry_price s' = Some price /\
    balance s' == 0 /\
    position s' == balance s * (1 - fee s) / price.
Proof.
  intros Hp Hb Hpr.
  assert (Hcb : can_buy s = true).
  { unfold can_buy. apply andb_true_intro. split.
    - apply Qeq_bool_iff. exact Hp.
    - apply Qltb_spec. exact Hb. }
  assert (Hmin : py_min (balance s) (balance s) = balance s).
  { unfold py_min. destruct (Qle_bool _ _); reflexivity. }
  assert (Hmax : py_max 0 (balance s) = balance s).
  { unfold py_max. destruct (Qle_bool (balance s) 0) eqn:E; [qbool; lra | reflexivity]. }
  assert (Hle : Qle_bool (balance s) 0 = false) by (apply Qle_bool_false; exact Hb).
  assert (Hdiv : Qeq_bool price 0 = false).
  { destruct (Qeq_bool price 0) eqn:E; [qbool; lra | reflexivity]. }
  unfold buy. rewrite Hcb. simpl negb. cbv iota.
  rewrite Hmin, Hmax, Hle. unfold py_div. rewrite Hdiv.
  eexists. split; [reflexivity|]. simpl.
  split; [reflexivity|]. split; [reflexivity|]. split; [ring|].
  unfold Qdiv. ring.
Qed.

End PaperProofs.

Module PaperInv.
Import Paper PaperProofs.

(** The invariant used for the induction: the AccountState invariant, a
    positive entry price, and a fee rate below 1. *)
Definition strong_inv (s : PaperTrader) : Prop :=
  account_inv s /\ (forall e, entry_price s = Some e -> 0 < e) /\ fee s < 1.

Lemma sell_inv s p ts r :
  strong_inv s -> 0 <= p -> exists s', sell s p ts r = Some s' /\ strong_inv s'.
Proof.
  intros [[Hb [Hp [Hpe Hen]]] [He Hf]] Hpr.
  destruct (can_sell s) eqn:Hcs.
  2: { exists s. unfold sell. rewrite Hcs. split; [reflexivity|]. repeat split; auto; tauto. }
  apply Qltb_spec in Hcs.
  destruct (sell_long s p ts r Hcs) as [pnl Hs]; [apply Hpe; exact Hcs|].
  rewrite Hs. eexists. split; [reflexivity|].
  unfold strong_inv, account_inv; simpl.
  split; [|split; [discriminate | exact Hf]].
  split; [|split; [lra|split; split; intros H; try lra; congruence]].
  assert (0 <= position s * p * (1 - fee s)).
  { apply Qmult_le_0_compat; [apply Qmult_le_0_compat|]; lra. }
  lra.
Qed.

Lemma buy_inv s p ts x :
  strong_inv s -> 0 < p -> exists s', buy s p ts x = Some s' /\ strong_inv s'.
Proof.
  intros Hs Hpr. pose proof Hs as [[Hb [Hp [Hpe Hen]]] [He Hf]].
  unfold buy. destruct (can_buy s) eqn:Hcb; simpl negb; cbv iota.
  2: { exists s. split; [reflexivity | exact Hs]. }
  set (spend := py_max 0 (py_min (match x with Some y => y | None => balance s end) (balance s))).
  assert (Hsp : spend <= balance s).
  { apply py_max_le; [exact Hb | apply py_min_le_r]. }
  destruct (Qle_bool spend 0) eqn:Hz.
  { exists s. split; [reflexivity | exact Hs]. }
  apply Qle_bool_false in Hz.
  assert (Hdiv : Qeq_bool p 0 = false).
  { destruct (Qeq_bool p 0) eqn:E; [qbool; lra | reflexivity]. }
  unfold py_div. rewrite Hdiv.
  eexists. split; [reflexivity|].
  assert (Hq : 0 < (spend - spend * fee s) / p).
  { apply Qlt_shift_div_l; [exact Hpr|].
    assert (0 < spend * (1 - fee s)) by (apply Qmult_lt_0_compat; lra).
    ring_simplify. ring_simplify in H. lra. }
  unfold strong_inv, account_inv; simpl.
  split; [|split; [intros e Heq; injection Heq as <-; exact Hpr | exact Hf]].
  split; [lra|]. split; [lra|].
  split; split; intros; try discriminate; try lra.
Qed.

Lemma check_inv s h l ts tp sl :
  strong_inv s -> 0 < l -> -1 <= tp ->
  exists s', check_tp_sl s h l ts tp sl = Some s' /\ strong_inv s'.
Proof.
  intros Hs Hl Htp. pose proof Hs as [[Hb [Hp [Hpe Hen]]] [He Hf]].
  unfold check_tp_sl. destruct (can_sell s) eqn:Hcs; simpl negb; cbv iota.
  2: { exists s. split; [reflexivity | exact Hs]. }
  apply Qltb_spec in Hcs.
  destruct (entry_price s) as [e|] eqn:Hep.
  2: { exfalso. apply Hpe in Hcs. congruence. }
  assert (He0 : 0 < e) by (apply He; reflexivity).
  assert (Htpp : 0 <= e * (1 + tp)) by (apply Qmult_le_0_compat; lra).
  destruct (Qle_bool (e * (1 + tp)) h) eqn:Ht; destruct (Qle_bool l (e * (1 - sl))) eqn:Hsl;
    simpl; qbool;
    solve [ apply sell_inv; [exact Hs | lra]
          | exists s; split; [reflexivity | exact Hs] ].
Qed.

Lemma step_inv s o :
  strong_inv s -> op_ok o -> exists s', step s o = Some s' /\ strong_inv s'.
Proof.
  intros Hs [Hp Hx]. destruct o as [p t x | p t r | h l t tp sl]; simpl in *.
  - apply buy_inv; assumption.
  - apply sell_inv; [assumption | lra].
  - apply check_inv; tauto.
Qed.

Lemma run_inv ops : forall s,
  strong_inv s -> Forall op_ok ops -> exists s', run s ops = Some s' /\ strong_inv s'.
Proof.
  induction ops as [|o ops IH]; intros s Hs Hops; simpl.
  - exists s. split; [reflexivity | exact Hs].
  - inversion Hops as [|? ? Ho Hrest]; subst.
    destruct (step_inv s o Hs Ho) as [s1 [-> Hs1]].
    apply IH; assumption.
Qed.

(** C3 (as amended): with a fee rate below 1 and a non-negative initial
    balance, any sequence of [buy], [sell] and [check_tp_sl] calls with
    positive prices and take-profit fractions [tp >= -1] raises no exception
    and ends in a state satisfying the AccountState invariant. *)
Theorem ledger_invariant_preserved (initial_balance fee : Q) (ops : list Op) :
  0 <= initial_balance -> fee < 1 -> Forall op_ok ops ->
  exists s, run (init initial_balance fee) ops = Some s /\ account_inv s.
Proof.
  intros Hb Hf Hops.
  destruct (run_inv ops (init initial_balance fee)) as [s [Hr [Hi _]]]; [|exact Hops|].
  - unfold strong_inv, account_inv, init; simpl.
    split; [|split; [discriminate | exact Hf]].
    split; [exact Hb|]. split; [lra|]. split; split; intros H; try lra; congruence.
  - exists s. split; assumption.
Qed.

(** C3 counterexample: with the default trader (balance 1000000, fee 0.001),
    [buy(1, 0, None)] then [check_tp_sl(high=1, low=1, 0, tp=-3, sl=0.5)]
    sells at the take-profit price [-2]; all supplied prices are positive
    and the balance ends negative. *)
Lemma ledger_invariant_counterexample :
  Forall prices_pos [OpBuy 1 0 None; OpCheck 1 1 0 (-3) (1 # 2)] /\
  exists s,
    run (init 1000000 (1 # 1000)) [OpBuy 1 0 None; OpCheck 1 1 0 (-3) (1 # 2)] = Some s /\
    balance s < 0 /\ ~ account_inv s.
Proof.
  split; [repeat constructor|].
  eexists. split; [vm_compute; reflexivity|].
  split.
  - vm_compute. reflexivity.
  - intros [Hb _]. vm_compute in Hb. apply Hb. reflexivity.
Qed.

End PaperInv.

Module RiskProofs.
Import Risk.

Lemma can_trade_same_day s b now :
  current_day s = Some (date now) ->
  can_trade b now s =
    (ex <- daily_loss_exceeded b ;;
     if ex then ret false else
     cd <- in_cooldown now ;;
     if cd then ret false else ret true) s.
Proof.
  intros Hd. unfold can_trade, bind at 1, get at 1. rewrite Hd.
  unfold bind at 1, ret at 1.
  unfold bind at 1, _check_new_day, bind at 1, get at 1. rewrite Hd.
  simpl. rewrite Z.eqb_refl. reflexivity.
Qed.

Lemma can_trade_new_day s b now :
  current_day s <> Some (date now) ->
  can_trade b now s =
    (ex <- daily_loss_exceeded b ;;
     if ex then ret false else
     cd <- in_cooldown now ;;
     if cd then ret false else ret true) (reset_state s b now).
Proof.
  intros Hd. unfold can_trade, bind at 1, get at 1.
  destruct (current_day s) as [d|] eqn:Ed.
  - unfold bind at 1, ret at 1.
    unfold bind at 1, _check_new_day, bind at 1, get at 1. rewrite Ed. simpl.
    destruct (Z.eqb d (date now)) eqn:E.
    + apply Z.eqb_eq in E. subst. congruence.
    + reflexivity.
  - cbv [bind _reset_day _check_new_day get put ret reset_state with_day current_day day_differs].
    rewrite Z.eqb_refl. reflexivity.
Qed.

Lemma daily_loss_exceeded_state b s : snd (daily_loss_exceeded b s) = s.
Proof.
  unfold daily_loss_exceeded, daily_loss_pct, bind, get, ret, lift.
  destruct (start_of_day_balance s) as [sob|]; [|reflexivity].
  destruct (py_div (sob - b) sob); reflexivity.
Qed.

(** The state after [can_trade]: the day reset when the anchor is not
    today's date, the same state otherwise. *)
Lemma can_trade_state s b now :
  snd (can_trade b now s) =
    if day_differs (current_day s) (date now) then reset_state s b now else s.
Proof.
  destruct (day_differs (current_day s) (date now)) eqn:E.
  - rewrite can_trade_new_day.
    2: { intros H. rewrite H in E. simpl in E. rewrite Z.eqb_refl in E. discriminate. }
    unfold bind at 1.
    pose proof (daily_loss_exceeded_state b (reset_state s b now)) as Hs.
    destruct (daily_loss_exceeded b (reset_state s b now)) as [[ex|] s1]; simpl in Hs; subst;
      [|reflexivity].
    destruct ex; [reflexivity|].
    cbv [bind in_cooldown get ret].
    destruct (cooldown_until _) as [c|]; [destruct (Z.ltb _ _)|]; reflexivity.
  - rewrite can_trade_same_day.
    2: { destruct (current_day s) as [d|]; [|discriminate]. simpl in E.
         apply negb_false_iff, Z.eqb_eq in E. subst. reflexivity. }
    unfold bind at 1.
    pose proof (daily_loss_exceeded_state b s) as Hs.
    destruct (daily_loss_exceeded b s) as [[ex|] s1]; simpl in Hs; subst; [|reflexivity].
    destruct ex; [reflexivity|].
    cbv [bind in_cooldown get ret].
    destruct (cooldown_until _) as [c|]; [destruct (Z.ltb _ _)|]; reflexivity.
Qed.

Lemma record_step s pnl now :
  snd (record_trade_result pnl now s) =
    let losses := if Qltb pnl 0 then (consecutive_losses s + 1)%Z else 0%Z in
    with_streak s losses
      (if Z.leb (max_consecutive_losses s) losses
       then Some (add_minutes now (cooldown_minutes s)) else cooldown_until s).
Proof. reflexivity. Qed.

(** A run of losing results adds its length to the streak and keeps the
    configuration and the day anchor. *)
Lemma record_all_losses rs : forall s,
  Forall (fun r => fst r < 0) rs ->
  let s' := record_all s rs in
  consecutive_losses s' = (consecutive_losses s + Z.of_nat (List.length rs))%Z /\
  max_consecutive_losses s' = max_consecutive_losses s /\
  cooldown_minutes s' = cooldown_minutes s /\
  max_daily_loss_pct s' = max_daily_loss_pct s /\
  current_day s' = current_day s /\
  start_of_day_balance s' = start_of_day_balance s.
Proof.
  induction rs as [|[p t] rs IH]; intros s Hall; cbv zeta.
  - simpl. repeat split. lia.
  - inversion Hall as [|? ? Hp Hrest]; subst. simpl in Hp.
    destruct (IH (snd (record_trade_result p t s)) Hrest) as [H1 [H2 [H3 [H4 [H5 H6]]]]].
    change (record_all s ((p, t) :: rs)) with (record_all (snd (record_trade_result p t s)) rs).
    rewrite H1, H2, H3, H4, H5, H6.
    rewrite record_step. assert (Hq : Qltb p 0 = true) by (apply Qltb_spec; exact Hp).
    rewrite Hq. simpl. repeat split. lia.
Qed.

(** C4: [record_trade_result] adds one to the streak on a loss and resets it
    to 0 otherwise; a result that brings the streak to
    [max_consecutive_losses] sets [cooldown_until = now + cooldown]; after
    [max_consecutive_losses] losing results in a row the cooldown ends at the
    last one's time plus the cooldown, and [can_trade(balance, t)] returns
    False for every [t] before it on the anchor's day when the daily-loss
    check reports the limit not exceeded. *)
Theorem streak_cooldown_blocks :
  (forall s pnl now, pnl < 0 ->
     consecutive_losses (snd (record_trade_result pnl now s)) = (consecutive_losses s + 1)%Z) /\
  (forall s pnl now, 0 <= pnl ->
     consecutive_losses (snd (record_trade_result pnl now s)) = 0%Z) /\
  (forall s pnl now,
     (max_consecutive_losses s <= consecutive_losses (snd (record_trade_result pnl now s)))%Z ->
     cooldown_until (snd (record_trade_result pnl now s)) =
       Some (add_minutes now (cooldown_minutes s))) /\
  (forall s rs pnl now,
     (0 <= consecutive_losses s)%Z ->
     Forall (fun r => fst r < 0) (rs ++ [(pnl, now)]) ->
     (max_consecutive_losses s <= Z.of_nat (List.length (rs ++ [(pnl, now)])))%Z ->
     let s' := record_all s (rs ++ [(pnl, now)]) in
     cooldown_until s' = Some (add_minutes now (cooldown_minutes s)) /\
     forall balance t,
       current_day s' = Some (date t) ->
       (t < add_minutes now (cooldown_minutes s))%Z ->
       daily_loss_exceeded balance s' = (Some false, s') ->
       can_trade balance t s' = (Some false, s')).
Proof.
  split; [|split; [|split]].
  - intros s pnl now Hp. rewrite record_step.
    assert (Hq : Qltb pnl 0 = true) by (apply Qltb_spec; exact Hp). rewrite Hq. reflexivity.
  - intros s pnl now Hp. rewrite record_step.
    assert (Hq : Qltb pnl 0 = false) by (apply Qltb_false; exact Hp). rewrite Hq. reflexivity.
  - intros s pnl now Hm. rewrite record_step in *. simpl in *.
    apply Z.leb_le in Hm. rewrite Hm. reflexivity.
  - intros s rs pnl now H0 Hall Hlen s'.
    apply Forall_app in Hall as [Hrs Hlast].
    inversion Hlast as [|? ? Hp _]; subst. simpl in Hp.
    destruct (record_all_losses rs s Hrs) as [H1 [H2 [H3 [_ _]]]].
    assert (Hs' : s' = snd (record_trade_result pnl now (record_all s rs))).
    { unfold s', record_all. rewrite fold_left_app. reflexivity. }
    assert (Hcd : cooldown_until s' = Some (add_minutes now (cooldown_minutes s))).
    { rewrite Hs', record_step.
      assert (Hq : Qltb pnl 0 = true) by (apply Qltb_spec; exact Hp). rewrite Hq.
      rewrite length_app in Hlen. simpl in Hlen.
      assert (Hle : Z.leb (max_consecutive_losses (record_all s rs))
                          (consecutive_losses (record_all s rs) + 1) = true).
      { apply Z.leb_le. rewrite H1, H2. lia. }
      simpl. rewrite Hle, H3. reflexivity. }
    split; [exact Hcd|].
    intros balance t Hday Ht Hdl.
    rewrite (can_trade_same_day s' balance t Hday).
    unfold bind at 1. rewrite Hdl.
    cbv [bind in_cooldown get ret]. rewrite Hcd.
    apply Z.ltb_lt in Ht. rewrite Ht. reflexivity.
Qed.

(** C5: when [now]'s date differs from the day anchor (or no anchor is set),
    [can_trade(balance, now)] first resets [start_of_day_balance] to
    [balance], the streak to 0 and [cooldown_until] to None (anchoring the
    day at [now]'s date), and its daily-loss and cooldown checks run on that
    reset state, which is the state the call leaves. *)
Theorem can_trade_rollover_resets s balance now :
  current_day s <> Some (date now) ->
  snd (can_trade balance now s) = reset_state s balance now /\
  start_of_day_balance (reset_state s balance now) = Some balance /\
  consecutive_losses (reset_state s balance now) = 0%Z /\
  cooldown_until (reset_state s balance now) = None /\
  current_day (reset_state s balance now) = Some (date now) /\
  can_trade balance now s =
    (ex <- daily_loss_exceeded balance ;;
     if ex then ret false else
     cd <- in_cooldown now ;;
     if cd then ret false else ret true) (reset_state s balance now).
Proof.
  intros Hd.
  assert (Hdd : day_differs (current_day s) (date now) = true).
  { destruct (current_day s) as [d|]; [|reflexivity]. simpl.
    apply negb_true_iff, Z.eqb_neq. congruence. }
  split; [rewrite can_trade_state, Hdd; reflexivity|].
  repeat split.
  apply can_trade_new_day. exact Hd.
Qed.

End RiskProofs.

Module GuardProofs.
Import Risk Sizer Guard RiskProofs.

(** C2 (as amended): [evaluate_entry] changes the RiskEngine exactly as its
    call to [can_trade(equity, now)] does, whatever it returns or raises:
    when the day anchor is unset or is not [now]'s date it leaves the day
    reset (anchor [now]'s date, [start_of_day_balance = equity], streak 0,
    no cooldown); otherwise it leaves the state unchanged. *)
Theorem evaluate_entry_state sizer equity now price stop_pct atr_pct mult s :
  snd (evaluate_entry sizer equity now price stop_pct atr_pct mult s) =
    snd (can_trade equity now s) /\
  snd (evaluate_entry sizer equity now price stop_pct atr_pct mult s) =
    (if day_differs (current_day s) (date now) then reset_state s equity now else s).
Proof.
  rewrite <- can_trade_state.
  assert (H : snd (evaluate_entry sizer equity now price stop_pct atr_pct mult s) =
              snd (can_trade equity now s)).
  { unfold evaluate_entry, bind at 1.
    destruct (can_trade equity now s) as [[ok|] s1]; [|reflexivity].
    destruct ok; simpl; [|reflexivity].
    destruct stop_pct as [sp|]; [|destruct atr_pct as [a|]];
      cbv [bind lift ret];
      repeat match goal with
             | |- context [match ?x with _ => _ end] => destruct x
             end; reflexivity. }
  split; exact H.
Qed.

(** C2 counterexample: on a fresh RiskEngine(3.0, 3, 60), one call
    [evaluate_entry(equity=1000000, now=0, price=100, stop_pct=0.009)] sets
    the day anchor and the start-of-day balance, so the state after the call
    differs from the state before it. *)
Lemma evaluate_entry_mutates_counterexample :
  snd (evaluate_entry default_sizer 1000000 0 100 (Some (9 # 1000)) None 1 (Risk.init 3 3 60))
    <> Risk.init 3 3 60.
Proof. intros H. vm_compute in H. discriminate. Qed.

End GuardProofs.

Module SizerProofs.
Import Sizer.

Lemma py_max_mono a b c d : a <= c -> b <= d -> py_max a b <= py_max c d.
Proof.
  intros. unfold py_max.
  destruct (Qle_bool b a) eqn:E1; destruct (Qle_bool d c) eqn:E2; qbool; lra.
Qed.

Lemma py_min_mono a b c d : a <= c -> b <= d -> py_min a b <= py_min c d.
Proof.
  intros. unfold py_min.
  destruct (Qle_bool a b) eqn:E1; destruct (Qle_bool c d) eqn:E2; qbool; lra.
Qed.

Lemma py_max_ge_l a b : a <= py_max a b.
Proof. unfold py_max. destruct (Qle_bool b a) eqn:E; qbool; lra. Qed.

Lemma py_max_ge_r a b : b <= py_max a b.
Proof. unfold py_max. destruct (Qle_bool b a) eqn:E; qbool; lra. Qed.

Lemma clamp_mono x y hi : x <= y -> _clamp x 0 hi <= _clamp y 0 hi.
Proof. intros. unfold _clamp. apply py_max_mono; [lra | apply py_min_mono; lra]. Qed.

Lemma clamp_nonneg x hi : 0 <= _clamp x 0 hi.
Proof. apply py_max_ge_l. Qed.

Lemma clamp_le_hi x hi : 0 <= hi -> _clamp x 0 hi <= hi.
Proof. intros. unfold _clamp. apply py_max_le; [exact H | apply Qle_trans with (py_min hi x)].
  - lra.
  - unfold py_min. destruct (Qle_bool hi x) eqn:E; qbool; lra.
Qed.

Lemma clamp_nonpos x hi : x <= 0 -> _clamp x 0 hi = 0.
Proof.
  intros Hx. unfold _clamp, py_max.
  assert (Qle_bool (py_min hi x) 0 = true).
  { apply Qle_bool_iff. apply Qle_trans with x; [apply py_min_le_r | exact Hx]. }
  rewrite H. reflexivity.
Qed.

Lemma tiny_pos : 0 < tiny.
Proof. reflexivity. Qed.

Lemma denom_pos stop f : 0 < py_max (stop + f) tiny.
Proof. apply Qlt_le_trans with tiny; [apply tiny_pos | apply py_max_ge_r]. Qed.

Lemma denom_nonzero stop f : Qeq_bool (py_max (stop + f) tiny) 0 = false.
Proof.
  pose proof (denom_pos stop f).
  destruct (Qeq_bool _ 0) eqn:E; [qbool; lra | reflexivity].
Qed.

(** Without a price the sizer never raises and returns [spend_amount]. *)
Lemma size_no_price p e stop :
  size_from_stop_pct p e stop None =
    Some (if Qle_bool stop 0 then zero_result else
          let k := _clamp (unclamped p e stop) 0 (e * (max_allocation_pct p / 100)) in
          if Qltb k (min_order_krw p) then zero_result
          else mkResult k None None (e * (risk_per_trade_pct p / 100))).
Proof.
  unfold size_from_stop_pct. destruct (Qle_bool stop 0); [reflexivity|].
  unfold py_div. rewrite denom_nonzero. unfold unclamped. cbv zeta.
  destruct (Qltb _ _); reflexivity.
Qed.

Lemma size_no_price_amount p e stop :
  option_map krw_to_spend (size_from_stop_pct p e stop None) = Some (spend_amount p e stop).
Proof.
  rewrite size_no_price. unfold spend_amount.
  destruct (Qle_bool stop 0); [reflexivity|]. cbv zeta.
  destruct (Qltb _ _); reflexivity.
Qed.

(** A non-zero price does not change the amount. *)
Lemma size_price_amount p e stop pr :
  ~ pr == 0 ->
  option_map krw_to_spend (size_from_stop_pct p e stop (Some pr)) =
  option_map krw_to_spend (size_from_stop_pct p e stop None).
Proof.
  intros Hpr. unfold size_from_stop_pct.
  destruct (Qle_bool stop 0); [reflexivity|].
  unfold py_div at 1 3. rewrite denom_nonzero. cbv zeta.
  destruct (Qltb _ _); [reflexivity|].
  unfold py_div. destruct (Qeq_bool pr 0) eqn:E; [qbool; contradiction | reflexivity].
Qed.

Lemma threshold_mono m x y :
  0 <= x -> x <= y -> (if Qltb x m then 0 else x) <= (if Qltb y m then 0 else y).
Proof.
  intros Hx Hxy. destruct (Qltb x m) eqn:E1; destruct (Qltb y m) eqn:E2; qbool; lra.
Qed.

Lemma div_mono_num a b m : 0 < m -> a <= b -> a / m <= b / m.
Proof.
  intros Hm Hab. unfold Qdiv. apply Qmult_le_compat_r; [exact Hab|].
  apply Qinv_le_0_compat. lra.
Qed.

Lemma div_anti_den b m1 m2 : 0 <= b -> 0 < m1 -> m1 <= m2 -> b / m2 <= b / m1.
Proof.
  intros Hb Hm1 Hm12. apply Qle_shift_div_l; [exact Hm1|].
  assert (HX : 0 <= b / m2) by (apply Qle_shift_div_l; lra).
  assert (HXm : b / m2 * m2 == b) by (field; lra).
  set (X := b / m2) in *. nra.
Qed.

Lemma div_nonpos b m : b <= 0 -> 0 < m -> b / m <= 0.
Proof. intros Hb Hm. apply Qle_shift_div_r; [exact Hm | lra]. Qed.

Lemma hundredth_nonneg x : 0 <= x -> 0 <= x / 100.
Proof. intros. apply Qle_shift_div_l; [reflexivity | lra]. Qed.

(** C6 (as amended): when [min_order_krw > 0] and the price is omitted or
    non-zero, [size_from_stop_pct] raises nothing and returns the zero
    sizing result exactly when [stop_pct <= 0] or the clamped amount
    [clamp(equity * risk / 100 / max(stop_pct + fee / 100, 1e-9), 0,
    equity * max_allocation / 100)] is below [min_order_krw]. *)
Theorem size_zero_iff_below_min p e stop price :
  0 < min_order_krw p ->
  (forall pr, price = Some pr -> ~ pr == 0) ->
  exists r,
    size_from_stop_pct p e stop price = Some r /\
    (r = zero_result <->
     stop <= 0 \/
     _clamp (unclamped p e stop) 0 (e * (max_allocation_pct p / 100)) < min_order_krw p).
Proof.
  intros Hmin Hpr. unfold size_from_stop_pct.
  destruct (Qle_bool stop 0) eqn:Hs.
  { exists zero_result. split; [reflexivity|]. split; [intros _; left; qbool; exact Hs | reflexivity]. }
  unfold py_div at 1. rewrite denom_nonzero. cbv zeta. fold (unclamped p e stop).
  set (K := _clamp (unclamped p e stop) 0 (e * (max_allocation_pct p / 100))).
  destruct (Qltb K (min_order_krw p)) eqn:Hk.
  { exists zero_result. split; [reflexivity|]. split; [intros _; right; qbool; exact Hk | reflexivity]. }
  qbool.
  destruct price as [pr|].
  - assert (Hz : Qeq_bool pr 0 = false).
    { destruct (Qeq_bool pr 0) eqn:E; [qbool; exfalso; apply (Hpr pr); auto | reflexivity]. }
    unfold py_div. rewrite Hz.
    eexists. split; [reflexivity|]. split; [intros H; discriminate H | intros [H|H]; lra].
  - eexists. split; [reflexivity|]. split.
    + intros H. injection H as HK _. rewrite HK in Hk. lra.
    + intros [H|H]; lra.
Qed.

(** C6 counterexample: with the default sizer (risk 0.30 %, allocation
    10 %, minimum 5000, fees 0.10 %), equity 40000 and stop 0.009 without a
    price, the unclamped amount [40000 * 0.3 / 100 / 0.01 = 12000] is not
    below the minimum, yet the zero sizing is returned because the clamped
    amount (capped at 4000) is. *)
Lemma size_zero_counterexample :
  size_from_stop_pct default_sizer 40000 (9 # 1000) None = Some zero_result /\
  ~ (9 # 1000 <= 0) /\
  min_order_krw default_sizer <=
    40000 * (risk_per_trade_pct default_sizer / 100) /
      ((9 # 1000) + fee_roundtrip_pct default_sizer / 100).
Proof.
  split; [vm_compute; reflexivity|].
  split; [intros H; vm_compute in H; apply H; reflexivity | vm_compute; discriminate].
Qed.

(** C7 (as amended): the amount [size_from_stop_pct] returns (the same with
    or without a non-zero price) is non-decreasing in [risk_per_trade_pct]
    for [equity >= 0], non-increasing in [stop_pct > 0], and, when
    [equity >= 0] and [max_allocation_pct >= 0], at most
    [equity * max_allocation_pct / 100]. *)
Theorem sizing_monotone_capped :
  (forall p e stop r1 r2, 0 <= e -> r1 <= r2 ->
     spend_amount (with_risk p r1) e stop <= spend_amount (with_risk p r2) e stop) /\
  (forall p e s1 s2, 0 < s1 -> s1 <= s2 ->
     spend_amount p e s2 <= spend_amount p e s1) /\
  (forall p e stop, 0 <= e -> 0 <= max_allocation_pct p ->
     spend_amount p e stop <= e * (max_allocation_pct p / 100)) /\
  (forall p e stop,
     option_map krw_to_spend (size_from_stop_pct p e stop None) = Some (spend_amount p e stop)) /\
  (forall p e stop pr, ~ pr == 0 ->
     option_map krw_to_spend (size_from_stop_pct p e stop (Some pr)) = Some (spend_amount p e stop)).
Proof.
  split; [|split; [|split; [|split]]].
  - intros p e stop r1 r2 He Hr. unfold spend_amount.
    destruct (Qle_bool stop 0); [lra|]. cbv zeta.
    apply threshold_mono; [apply clamp_nonneg|]. apply clamp_mono.
    unfold unclamped, with_risk; simpl.
    apply div_mono_num; [apply denom_pos|].
    assert (H1 : r1 / 100 <= r2 / 100) by (apply div_mono_num; [reflexivity | exact Hr]).
    set (a := r1 / 100) in *. set (b := r2 / 100) in *. nra.
  - intros p e s1 s2 H1 H12. unfold spend_amount.
    assert (E1 : Qle_bool s1 0 = false) by (apply Qle_bool_false; exact H1).
    assert (E2 : Qle_bool s2 0 = false) by (apply Qle_bool_false; lra).
    rewrite E1, E2. cbv zeta.
    set (b := e * (risk_per_trade_pct p / 100)).
    destruct (Qlt_le_dec b 0) as [Hb|Hb].
    + unfold unclamped. fold b.
      rewrite !clamp_nonpos by (apply div_nonpos; [lra | apply denom_pos]).
      lra.
    + apply threshold_mono; [apply clamp_nonneg|]. apply clamp_mono.
      unfold unclamped. fold b.
      apply div_anti_den; [exact Hb | apply denom_pos | apply py_max_mono; lra].
  - intros p e stop He Hm.
    assert (Hcap : 0 <= e * (max_allocation_pct p / 100)).
    { apply Qmult_le_0_compat; [exact He | apply hundredth_nonneg; exact Hm]. }
    unfold spend_amount. destruct (Qle_bool stop 0); [exact Hcap|]. cbv zeta.
    destruct (Qltb _ _); [exact Hcap | apply clamp_le_hi; exact Hcap].
  - intros. apply size_no_price_amount.
  - intros p e stop pr Hpr. rewrite size_price_amount by exact Hpr.
    apply size_no_price_amount.
Qed.

(** C7 counterexample: with [max_allocation_pct = -10] and equity 1000 the
    amount returned (0) exceeds [equity * max_allocation_pct / 100 = -100]. *)
Lemma sizing_cap_counterexample :
  size_from_stop_pct (mkSizer (30 # 100) (-10) 5000 (10 # 100)) 1000 (9 # 1000) None
    = Some zero_result /\
  1000 * (max_allocation_pct (mkSizer (30 # 100) (-10) 5000 (10 # 100)) / 100)
    < krw_to_spend zero_result.
Proof. split; vm_compute; reflexivity. Qed.

End SizerProofs.

Module CandleProofs.
Import Candles.

Lemma py_min_le_l a b : py_min a b <= a.
Proof. unfold py_min. destruct (Qle_bool a b) eqn:E; qbool; lra. Qed.

Definition builder_ok (b : Builder) : Prop := forall m c, b m = Some c -> ohlc_ok c.

Lemma set_ok b m c : builder_ok b -> ohlc_ok c -> builder_ok (set b m c).
Proof.
  intros Hb Hc m' c'. unfold set. destruct (String.eqb m' m).
  - intros H. injection H as <-. exact Hc.
  - apply Hb.
Qed.

Lemma fresh_ok t p v : ohlc_ok (mkCandle t p p p p v).
Proof. unfold ohlc_ok; simpl. repeat split; lra. Qed.

Lemma update_ok b m price vol ms :
  builder_ok b ->
  ohlc_ok (snd (fst (update_trade b m price vol ms))) /\
  (forall c, fst (fst (update_trade b m price vol ms)) = Some c -> ohlc_ok c) /\
  builder_ok (snd (update_trade b m price vol ms)).
Proof.
  intros Hb. unfold update_trade.
  destruct (b m) as [cur|] eqn:Hbm.
  - pose proof (Hb m cur Hbm) as [H1 [H2 [H3 H4]]].
    destruct (Z.eqb (time cur) (_bucket (ms * 1000))); simpl.
    + assert (Hc : ohlc_ok (mkCandle (time cur) (open cur) (py_max (high cur) price)
                              (py_min (low cur) price) price (volume cur + vol))).
      { unfold ohlc_ok; simpl.
        pose proof (py_min_le_l (low cur) price). pose proof (py_min_le_r (low cur) price).
        pose proof (SizerProofs.py_max_ge_l (high cur) price).
        pose proof (SizerProofs.py_max_ge_r (high cur) price).
        repeat split; lra. }
      split; [exact Hc|]. split; [discriminate|]. apply set_ok; assumption.
    + split; [apply fresh_ok|]. split.
      * intros c H. injection H as <-. apply (Hb m cur Hbm).
      * apply set_ok; [exact Hb | apply fresh_ok].
  - simpl. split; [apply fresh_ok|]. split; [discriminate|].
    apply set_ok; [exact Hb | apply fresh_ok].
Qed.

Lemma feed_ohlc ticks : forall b,
  builder_ok b ->
  Forall (fun o => ohlc_ok (snd o) /\ forall c, fst o = Some c -> ohlc_ok c)
         (fst (feed b ticks)).
Proof.
  induction ticks as [|t ts IH]; intros b Hb; simpl; [constructor|].
  destruct (update_ok b (t_market t) (t_price t) (t_vol t) (t_ms t) Hb) as [H1 [H2 H3]].
  destruct (update_trade b (t_market t) (t_price t) (t_vol t) (t_ms t)) as [out b'].
  specialize (IH b' H3).
  destruct (feed b' ts) as [outs b'']. simpl in *.
  constructor; [split; assumption | exact IH].
Qed.

Lemma bucket_mono x y : (x <= y)%Z -> (_bucket x <= _bucket y)%Z.
Proof.
  intros H. unfold _bucket, US_PER_5MIN.
  apply Z.mul_le_mono_nonneg_r; [lia|]. apply Z.div_le_mono; lia.
Qed.

Lemma set_here b m c : set b m c m = Some c.
Proof. unfold set. rewrite String.eqb_refl. reflexivity. Qed.

(** Fed the ticks of one market in time order, the builder closes candles in
    strictly increasing bucket order, none earlier than its current candle. *)
Lemma feed_closed_sorted m ticks : forall b,
  Forall (fun t => t_market t = m) ticks ->
  StronglySorted Z.le (map t_ms ticks) ->
  (forall cur, b m = Some cur ->
     Forall (fun t => (time cur <= _bucket (t_ms t * 1000))%Z) ticks) ->
  StronglySorted Z.lt (map time (closed_candles (fst (feed b ticks)))) /\
  (forall cur, b m = Some cur ->
     Forall (fun c => (time cur <= time c)%Z) (closed_candles (fst (feed b ticks)))).
Proof.
  induction ticks as [|t ts IH]; intros b Hm Hs Hcur.
  { simpl. split; [constructor | intros; constructor]. }
  apply Forall_cons_iff in Hm as [Htm Hms].
  simpl in Hs. apply StronglySorted_inv in Hs as [Hss Hhd].
  assert (Hhd' : Forall (fun t' => (t_ms t <= t_ms t')%Z) ts).
  { rewrite Forall_map in Hhd. exact Hhd. }
  destruct t as [tm tp tv tms]; simpl in *. subst tm.
  set (B := _bucket (tms * 1000)) in *.
  assert (HB : Forall (fun t' => (B <= _bucket (t_ms t' * 1000))%Z) ts).
  { eapply Forall_impl; [|exact Hhd']. intros t' H. cbv beta in *. apply bucket_mono. lia. }
  cbn [feed]. unfold update_trade. fold B.
  destruct (b m) as [cur|] eqn:Hbm.
  - specialize (Hcur cur eq_refl). inversion Hcur as [|? ? Hc0 Hcs]; subst. simpl in Hc0.
    destruct (Z.eqb (time cur) B) eqn:Heq.
    + set (c' := mkCandle (time cur) (open cur) (py_max (high cur) tp)
                   (py_min (low cur) tp) tp (volume cur + tv)).
      destruct (IH (set b m c') Hms Hss) as [IH1 IH2].
      { intros c0 Hc0'. rewrite set_here in Hc0'. injection Hc0' as <-. exact Hcs. }
      destruct (feed (set b m c') ts) as [outs b''] eqn:Hf. simpl in *.
      split; [exact IH1|].
      intros c0 Hc0'. injection Hc0' as <-. apply (IH2 c' (set_here b m c')).
    + apply Z.eqb_neq in Heq.
      set (c' := mkCandle B tp tp tp tp tv).
      destruct (IH (set b m c') Hms Hss) as [IH1 IH2].
      { intros c0 Hc0'. rewrite set_here in Hc0'. injection Hc0' as <-. exact HB. }
      specialize (IH2 c' (set_here b m c')).
      destruct (feed (set b m c') ts) as [outs b''] eqn:Hf. simpl in *.
      split.
      * constructor; [exact IH1|]. rewrite Forall_map.
        eapply Forall_impl; [|exact IH2]. simpl. intros c H. lia.
      * intros c0 Hc0'. injection Hc0' as <-. constructor; [lia|].
        eapply Forall_impl; [|exact IH2]. simpl. intros c H. lia.
  - set (c' := mkCandle B tp tp tp tp tv).
    destruct (IH (set b m c') Hms Hss) as [IH1 IH2].
    { intros c0 Hc0'. rewrite set_here in Hc0'. injection Hc0' as <-. exact HB. }
    destruct (feed (set b m c') ts) as [outs b''] eqn:Hf. simpl in *.
    split; [exact IH1 | intros; discriminate].
Qed.

(** C9 (as amended): for every sequence of ticks, every candle returned by
    [update_trade] (closed or current) satisfies [low <= open <= high] and
    [low <= close <= high]; for the ticks of one market given with
    non-decreasing timestamps, the closed candles have strictly increasing
    time buckets. *)
Theorem candles_ordered_ohlc :
  (forall ticks,
     Forall (fun o => ohlc_ok (snd o) /\ forall c, fst o = Some c -> ohlc_ok c)
            (fst (feed empty ticks))) /\
  (forall m ticks,
     Forall (fun t => t_market t = m) ticks ->
     Sorted Z.le (map t_ms ticks) ->
     StronglySorted Z.lt (map time (closed_candles (fst (feed empty ticks))))).
Proof.
  split.
  - intros ticks. apply feed_ohlc. intros m c H. discriminate H.
  - intros m ticks Hm Hs.
    apply (feed_closed_sorted m ticks empty Hm).
    + apply Sorted_StronglySorted; [exact Z.le_trans | exact Hs].
    + intros cur H. discriminate H.
Qed.

(** C9 counterexample: three ticks of "KRW-BTC" at 600000 ms, 0 ms and
    600000 ms close the candles of the buckets 00:10 and then 00:00, in
    decreasing order. *)
Lemma candles_out_of_order_counterexample :
  map time (closed_candles (fst (feed empty
    [mkTick "KRW-BTC" 1 1 600000; mkTick "KRW-BTC" 1 1 0; mkTick "KRW-BTC" 1 1 600000])))
  = [600000000%Z; 0%Z].
Proof. vm_compute. reflexivity. Qed.

End CandleProofs.

(** * Properties of the drawdown computations *)
Module DrawdownProofs.
Import Replay SizerProofs.

Lemma mdd_loop_ge curve : forall peak mdd, mdd <= mdd_loop peak mdd curve.
Proof.
  induction curve as [|e curve IH]; intros peak mdd; simpl; [lra|].
  set (pk := if Qltb peak e then e else peak).
  set (dd := if Qltb 0 pk then (pk - e) / pk * 100 else 0).
  eapply Qle_trans; [|apply IH].
  destruct (Qltb mdd dd) eqn:E; qbool; lra.
Qed.

(** The running peak never decreases and is at least the current value. *)
Lemma peak_step peak e : peak <= (if Qltb peak e then e else peak) /\
                         e <= (if Qltb peak e then e else peak).
Proof. destruct (Qltb peak e) eqn:E; qbool; lra. Qed.

(** [max_drawdown_pct] never returns a negative value. *)
Theorem max_drawdown_pct_nonneg curve : 0 <= max_drawdown_pct curve.
Proof.
  destruct curve as [|e0 rest]; cbv [max_drawdown_pct]; [lra|]. apply mdd_loop_ge.
Qed.

Lemma mdd_loop_le_100 curve : forall peak mdd,
  mdd <= 100 -> Forall (fun e => 0 <= e) curve -> mdd_loop peak mdd curve <= 100.
Proof.
  induction curve as [|e curve IH]; intros peak mdd Hm Hc; simpl; [exact Hm|].
  apply Forall_cons_iff in Hc as [He Hc]. apply IH; [|exact Hc].
  set (pk := if Qltb peak e then e else peak).
  assert (Hdd : (if Qltb 0 pk then (pk - e) / pk * 100 else 0) <= 100).
  { destruct (Qltb 0 pk) eqn:E; qbool; [|lra].
    assert ((pk - e) / pk <= 1) by (apply Qle_shift_div_r; lra). lra. }
  set (dd := if Qltb 0 pk then (pk - e) / pk * 100 else 0) in *.
  destruct (Qltb mdd dd); lra.
Qed.

(** On a curve of non-negative values the drawdown is at most 100. *)
Theorem max_drawdown_pct_le_100 curve :
  Forall (fun e => 0 <= e) curve -> max_drawdown_pct curve <= 100.
Proof.
  intros Hc. destruct curve as [|e0 rest]; cbv [max_drawdown_pct]; [lra|].
  apply mdd_loop_le_100; [lra | exact Hc].
Qed.

Lemma mdd_loop_sorted curve : forall peak,
  Sorted Qle (peak :: curve) -> mdd_loop peak 0 curve = 0.
Proof.
  induction curve as [|e curve IH]; intros peak Hs; [reflexivity|].
  apply Sorted_inv in Hs as [Hs Hhd]. apply HdRel_inv in Hhd.
  simpl. destruct (Qltb peak e) eqn:E; qbool.
  - assert (Hdd : Qltb 0 (if Qltb 0 e then (e - e) / e * 100 else 0) = false).
    { apply Qltb_false. destruct (Qltb 0 e) eqn:E'; qbool; [|lra].
      assert ((e - e) / e <= 0) by (apply div_nonpos; lra). lra. }
    rewrite Hdd. apply IH. exact Hs.
  - assert (Hdd : Qltb 0 (if Qltb 0 peak then (peak - e) / peak * 100 else 0) = false).
    { apply Qltb_false. destruct (Qltb 0 peak) eqn:E'; qbool; [|lra].
      assert ((peak - e) / peak <= 0) by (apply div_nonpos; lra). lra. }
    rewrite Hdd. apply IH.
    apply Sorted_inv in Hs as [Hs' Hhd'].
    constructor; [exact Hs'|].
    destruct curve as [|f curve]; constructor. apply HdRel_inv in Hhd'. lra.
Qed.

(** A non-decreasing equity curve has no drawdown. *)
Theorem max_drawdown_pct_sorted curve :
  Sorted Qle curve -> max_drawdown_pct curve = 0.
Proof.
  intros Hs. destruct curve as [|e0 rest]; [reflexivity|].
  cbv [max_drawdown_pct]. apply mdd_loop_sorted.
  constructor; [exact Hs|]. constructor. lra.
Qed.

Lemma mdd_loop_app pre : forall peak mdd l,
  exists peak' mdd', peak <= peak' /\ mdd_loop peak mdd (pre ++ l) = mdd_loop peak' mdd' l.
Proof.
  induction pre as [|e pre IH]; intros peak mdd l.
  - exists peak, mdd. split; [lra | reflexivity].
  - simpl. destruct (IH (if Qltb peak e then e else peak)
                        (let pk := if Qltb peak e then e else peak in
                         let dd := if Qltb 0 pk then (pk - e) / pk * 100 else 0 in
                         if Qltb mdd dd then dd else mdd) l) as [p' [m' [Hp Heq]]].
    exists p', m'. split; [|exact Heq].
    pose proof (peak_step peak e). lra.
Qed.

(** The drop from [x] to a later [y], as a percentage of [x]. *)
Lemma drop_le x P y : 0 < x -> x <= P -> 0 <= y -> (x - y) / x * 100 <= (P - y) / P * 100.
Proof.
  intros Hx HP Hy.
  assert (E1 : (x - y) / x == 1 - y / x) by (field; lra).
  assert (E2 : (P - y) / P == 1 - y / P) by (field; lra).
  pose proof (div_anti_den y x P Hy Hx HP).
  rewrite E1, E2. lra.
Qed.

Lemma mdd_loop_bound post : forall peak mdd x y,
  0 < x -> x <= peak -> In y post -> 0 <= y ->
  (x - y) / x * 100 <= mdd_loop peak mdd post.
Proof.
  induction post as [|e post IH]; intros peak mdd x y Hx Hp Hin Hy; [destruct Hin|].
  simpl. pose proof (peak_step peak e) as [Hpk Hek].
  set (pk := if Qltb peak e then e else peak) in *.
  assert (Hpos : Qltb 0 pk = true) by (apply Qltb_spec; lra).
  rewrite Hpos.
  set (mdd' := if Qltb mdd ((pk - e) / pk * 100) then (pk - e) / pk * 100 else mdd).
  destruct Hin as [<- | Hin].
  - eapply Qle_trans; [apply (drop_le x pk); lra|].
    eapply Qle_trans; [|apply mdd_loop_ge].
    unfold mdd'. destruct (Qltb mdd ((pk - e) / pk * 100)) eqn:E; qbool; lra.
  - apply IH; [exact Hx | lra | exact Hin | exact Hy].
Qed.

(** For a value [x > 0] of the curve and a later value [y >= 0], the
    drawdown is at least the drop from [x] to [y] in percent of [x]. *)
Theorem max_drawdown_pct_ge_drop pre x post y :
  0 < x -> In y post -> 0 <= y ->
  (x - y) / x * 100 <= max_drawdown_pct (pre ++ x :: post).
Proof.
  intros Hx Hin Hy.
  assert (Hstart : exists e0, max_drawdown_pct (pre ++ x :: post) =
                              mdd_loop e0 0 (pre ++ x :: post)).
  { destruct pre as [|a pre]; simpl; eexists; reflexivity. }
  destruct Hstart as [e0 ->].
  destruct (mdd_loop_app pre e0 0 (x :: post)) as [p' [m' [_ ->]]].
  simpl. pose proof (peak_step p' x) as [_ Hxk].
  set (pk := if Qltb p' x then x else p') in *.
  apply (mdd_loop_bound post pk _ x y Hx Hxk Hin Hy).
Qed.

End DrawdownProofs.

Module DashboardProofs.
Import Paper Dashboard.

Lemma Qeq_bool_pos x : 0 < x -> Qeq_bool x 0 = false.
Proof.
  intros H. destruct (Qeq_bool x 0) eqn:E; [|reflexivity].
  apply Qeq_bool_iff in E. lra.
Qed.

Lemma py_max_ltb a b : py_max a b = if Qltb a b then b else a.
Proof. unfold py_max, Qltb. destruct (Qle_bool b a); reflexivity. Qed.

Lemma dash_loop_pos equity : forall peak m,
  0 < peak -> Forall (fun v => 0 < v) equity ->
  dash_loop peak (Some m) equity = Some (Replay.mdd_loop peak m equity).
Proof.
  induction equity as [|v equity IH]; intros peak m Hp Hv; [reflexivity|].
  apply Forall_cons_iff in Hv as [Hv0 Hv]. simpl. rewrite !py_max_ltb.
  set (pk := if Qltb peak v then v else peak).
  assert (Hpk : 0 < pk) by (unfold pk; destruct (Qltb peak v); lra).
  rewrite (Qeq_bool_pos pk Hpk).
  assert (Hq : Qltb 0 pk = true) by (apply Qltb_spec; exact Hpk).
  rewrite Hq. apply IH; assumption.
Qed.

(** When every SELL balance is positive, the dashboard's drawdown is finite
    and equals [max_drawdown_pct] of backtest_replay.py on the SELL
    balances. *)
Theorem dashboard_drawdown_agrees (history : list Trade) :
  Forall (fun v => 0 < v) (sell_balances history) ->
  max_drawdown history = Some (Replay.max_drawdown_pct (sell_balances history)).
Proof.
  intros Hv. unfold max_drawdown.
  destruct (sell_balances history) as [|v0 rest] eqn:E; [reflexivity|].
  cbv [Replay.max_drawdown_pct]. apply dash_loop_pos; [|exact Hv].
  apply Forall_cons_iff in Hv. tauto.
Qed.

End DashboardProofs.

Module LabelProofs.
Import Paper PaperProofs Labels.

Lemma first_index_cons {A} (p : A -> bool) x l :
  first_index p (x :: l) = if p x then Some 0%nat else option_map S (first_index p l).
Proof. reflexivity. Qed.

(** A Flat ledger is left alone by [check_tp_sl]. *)
Lemma hold_flat tp sl w : forall s, position s = 0 -> hold s tp sl w = Some s.
Proof.
  induction w as [|x w IH]; intros s Hs; [reflexivity|].
  simpl. unfold check_tp_sl.
  rewrite (can_sell_flat s) by (rewrite Hs; reflexivity). simpl. apply IH. exact Hs.
Qed.

(** The label of an entry agrees with the exit of the ledger: a Long
    position entered at the labelled close and checked with [check_tp_sl]
    on each bar of the window is closed with reason "TP" when the label is
    1, with "SL" or "SL_TIE" when it is 0, and stays open when the row has
    no label. *)
Theorem label_matches_exit s entry tp sl w :
  0 < position s -> entry_price s = Some entry ->
  exists s', hold s tp sl w = Some s' /\
    match label_of entry tp sl w with
    | None => s' = s
    | Some l =>
        position s' = 0 /\
        exists t p pnl bal r,
          history s' = history s ++ [SELL t p pnl bal r] /\
          ((l = 1%Z /\ r = "TP"%string) \/
           (l = 0%Z /\ (r = "SL"%string \/ r = "SL_TIE"%string)))
    end.
Proof.
  intros Hp He. assert (Hne : entry_price s <> None) by congruence.
  induction w as [|x w IH].
  - exists s. split; reflexivity.
  - unfold label_of in *. rewrite !first_index_cons.
    cbn [hold]. unfold check_tp_sl. rewrite (can_sell_pos s Hp), He. cbv zeta. simpl negb.
    cbv iota.
    destruct (Qle_bool (entry * (1 + tp)) (b_high x)) eqn:Et;
    destruct (Qle_bool (b_low x) (entry * (1 - sl))) eqn:Es; simpl andb; cbv iota.
    + destruct (sell_long s (entry * (1 - sl)) (b_time x) "SL_TIE" Hp Hne) as [pnl ->].
      rewrite hold_flat by reflexivity. eexists. split; [reflexivity|].
      split; [reflexivity|]. do 5 eexists. split; [reflexivity|].
      right. split; [reflexivity | right; reflexivity].
    + destruct (sell_long s (entry * (1 + tp)) (b_time x) "TP" Hp Hne) as [pnl ->].
      rewrite hold_flat by reflexivity. eexists. split; [reflexivity|].
      destruct (first_index (fun y => Qle_bool (b_low y) (entry * (1 - sl))) w); simpl;
      (split; [reflexivity|]; do 5 eexists; split; [reflexivity|];
       left; split; reflexivity).
    + destruct (sell_long s (entry * (1 - sl)) (b_time x) "SL" Hp Hne) as [pnl ->].
      rewrite hold_flat by reflexivity. eexists. split; [reflexivity|].
      destruct (first_index (fun y => Qle_bool (entry * (1 + tp)) (b_high y)) w); simpl;
      (split; [reflexivity|]; do 5 eexists; split; [reflexivity|];
       right; split; [reflexivity | left; reflexivity]).
    + destruct IH as [s' [Hh Hl]]. exists s'. split; [exact Hh|].
      destruct (first_index (fun y => Qle_bool (entry * (1 + tp)) (b_high y)) w);
      destruct (first_index (fun y => Qle_bool (b_low y) (entry * (1 - sl))) w);
      exact Hl.
Qed.

Lemma slice_window bars i mh :
  (i < List.length bars)%nat -> (-1 <= mh)%Z ->
  py_slice bars (Z.of_nat i + 1) (Z.of_nat i + 1 + mh) = window bars (Z.to_nat mh) i.
Proof.
  intros Hi Hm. unfold py_slice, slice_index, window.
  replace (Z.of_nat i + 1 <? 0)%Z with false by (symmetry; apply Z.ltb_ge; lia).
  replace (Z.of_nat i + 1 + mh <? 0)%Z with false by (symmetry; apply Z.ltb_ge; lia).
  replace (Z.to_nat (Z.of_nat i + 1)) with (S i) by lia.
  replace (Nat.min (S i) (List.length bars)) with (S i) by lia.
  destruct (Z.eq_dec mh (-1)) as [->|Hne].
  - replace (Z.to_nat (Z.of_nat i + 1 + -1)) with i by lia.
    replace (Nat.min i (List.length bars) - S i)%nat with 0%nat by lia. reflexivity.
  - replace (Z.to_nat (Z.of_nat i + 1 + mh)) with (S i + Z.to_nat mh)%nat by lia.
    destruct (Nat.le_gt_cases (S i + Z.to_nat mh) (List.length bars)).
    + f_equal. lia.
    + rewrite !firstn_all2; [reflexivity | rewrite length_skipn; lia..].
Qed.

Lemma loop_fails bars tp sl mh : forall m k labels,
  (k <= List.length bars < k + m)%nat ->
  label_loop bars tp sl mh labels (seq k m) = None.
Proof.
  induction m as [|m IH]; intros k labels H; [lia|].
  cbn [seq label_loop]. destruct (nth_error bars k) eqn:E; [|reflexivity].
  assert (k < List.length bars)%nat by (apply nth_error_Some; congruence).
  destruct (label_of _ _ _ _); apply IH; lia.
Qed.

Lemma length_replace_nth {A} (l : list A) : forall i x,
  List.length (replace_nth l i x) = List.length l.
Proof. induction l as [|y l IH]; intros [|i] x; simpl; auto. Qed.

Lemma nth_replace_nth {A} (l : list A) : forall i x j,
  (i < List.length l)%nat ->
  nth_error (replace_nth l i x) j = if Nat.eqb i j then Some x else nth_error l j.
Proof.
  induction l as [|y l IH]; intros i x j Hi; simpl in Hi; [lia|].
  destruct i as [|i], j as [|j]; simpl; try reflexivity.
  apply IH. lia.
Qed.

(** The labels array after the loop over [seq k m]: rows [k <= j < k + m]
    hold their label when they get one, the others are untouched. *)
Lemma loop_ok bars tp sl mh : (-1 <= mh)%Z -> forall m k labels,
  (k + m <= List.length bars)%nat -> List.length labels = List.length bars ->
  exists L, label_loop bars tp sl mh labels (seq k m) = Some L /\
    List.length L = List.length bars /\
    forall j, (j < List.length bars)%nat ->
      nth_error L j =
        if (k <=? j) && (j <? k + m) then
          match label_at bars tp sl (Z.to_nat mh) j with
          | Some l => Some (Some l)
          | None => nth_error labels j
          end
        else nth_error labels j.
Proof.
  intros Hm. induction m as [|m IH]; intros k labels Hk Hl.
  - exists labels. split; [reflexivity|]. split; [exact Hl|].
    intros j _. destruct (Nat.leb_spec k j), (Nat.ltb_spec j (k + 0)); try lia; reflexivity.
  - cbn [seq label_loop].
    destruct (nth_error bars k) as [b|] eqn:E;
      [|apply nth_error_None in E; lia].
    rewrite slice_window by lia.
    assert (Hla : label_at bars tp sl (Z.to_nat mh) k =
                  label_of (b_close b) tp sl (window bars (Z.to_nat mh) k))
      by (unfold label_at; rewrite E; reflexivity).
    destruct (label_of (b_close b) tp sl (window bars (Z.to_nat mh) k)) as [l|] eqn:El.
    + destruct (IH (S k) (replace_nth labels k (Some l))) as [L [HL [HlenL HnL]]];
        [lia | rewrite length_replace_nth; exact Hl|].
      exists L. split; [exact HL|]. split; [exact HlenL|].
      intros j Hj. rewrite (HnL j Hj), nth_replace_nth by lia.
      destruct (Nat.eq_dec j k) as [->|Hjk].
      * rewrite Nat.eqb_refl, Hla.
        destruct (Nat.leb_spec (S k) k), (Nat.leb_spec k k), (Nat.ltb_spec k (k + S m));
          try lia; reflexivity.
      * replace (Nat.eqb k j) with false by (symmetry; apply Nat.eqb_neq; lia).
        destruct (Nat.leb_spec (S k) j), (Nat.ltb_spec j (S k + m)),
                 (Nat.leb_spec k j), (Nat.ltb_spec j (k + S m)); simpl; try lia; reflexivity.
    + destruct (IH (S k) labels) as [L [HL [HlenL HnL]]]; [lia | exact Hl|].
      exists L. split; [exact HL|]. split; [exact HlenL|].
      intros j Hj. rewrite (HnL j Hj).
      destruct (Nat.eq_dec j k) as [->|Hjk].
      * rewrite Hla.
        destruct (Nat.leb_spec (S k) k), (Nat.leb_spec k k), (Nat.ltb_spec k (k + S m));
          try lia; reflexivity.
      * destruct (Nat.leb_spec (S k) j), (Nat.ltb_spec j (S k + m)),
                 (Nat.leb_spec k j), (Nat.ltb_spec j (k + S m)); simpl; try lia; reflexivity.
Qed.

Lemma sorted_map_S (idx : list nat) :
  StronglySorted lt idx -> StronglySorted lt (map S idx).
Proof.
  induction 1 as [|a l _ IH Hf]; simpl; constructor; [exact IH|].
  apply Forall_map. eapply Forall_impl; [|exact Hf]. intros x H. simpl. lia.
Qed.

Definition row_of (bars : list Bar) (L : list (option Z)) (i : nat) (row : Bar * Z) : Prop :=
  nth_error bars i = Some (fst row) /\ nth_error L i = Some (Some (snd row)).

Lemma rows_shift bars L b o idx out :
  Forall2 (row_of bars L) idx out -> Forall2 (row_of (b :: bars) (o :: L)) (map S idx) out.
Proof. induction 1; simpl; constructor; assumption. Qed.

(** [dropna] keeps the labelled rows, in increasing row order, each once. *)
Lemma keep_spec bars : forall L, List.length L = List.length bars ->
  exists idx, StronglySorted lt idx /\
    Forall2 (row_of bars L) idx (keep_labelled bars L) /\
    (forall j l, nth_error L j = Some (Some l) -> In j idx).
Proof.
  induction bars as [|b bars IH]; intros [|o L] Hl; simpl in Hl; try discriminate.
  - exists []. split; [constructor|]. split; [constructor|].
    intros [|j] l H; discriminate.
  - destruct (IH L) as [idx [Hs [Hf Hc]]]; [lia|].
    destruct o as [l|].
    + exists (0%nat :: map S idx). split; [|split].
      * constructor; [apply sorted_map_S; exact Hs|].
        apply Forall_map, Forall_forall. intros x _. lia.
      * simpl. constructor; [split; reflexivity | apply rows_shift; exact Hf].
      * intros [|j] l' H; [left; reflexivity|]. right. apply in_map. exact (Hc j l' H).
    + exists (map S idx). split; [apply sorted_map_S; exact Hs|]. split.
      * simpl. apply rows_shift. exact Hf.
      * intros [|j] l' H; [discriminate|]. apply in_map. exact (Hc j l' H).
Qed.

Lemma sorted_bound (idx : list nat) : forall k n,
  StronglySorted lt idx -> Forall (fun i => k <= i < n)%nat idx ->
  (List.length idx <= n - k)%nat.
Proof.
  induction idx as [|a idx IH]; intros k n Hs Hb; simpl; [lia|].
  inversion Hs as [|? ? Hs' Hlt]; subst. inversion Hb as [|? ? Ha Hb']; subst.
  assert (List.length idx <= n - S a)%nat.
  { apply IH; [exact Hs'|].
    apply Forall_forall. intros x Hx.
    pose proof (proj1 (Forall_forall _ _) Hlt x Hx).
    pose proof (proj1 (Forall_forall _ _) Hb' x Hx). simpl in *. lia. }
  lia.
Qed.

(** [create_tp_sl_labels] raises [IndexError] exactly when
    [max_holding <= -2] (the range then reaches [len(df)]); otherwise it
    returns, in row order and each once, exactly the rows
    [i < len(df) - max_holding - 1] whose look-ahead window of
    [max_holding] bars hits the take-profit or the stop, each with its
    label, so at most [len(df) - max_holding - 1] rows. *)
Theorem create_tp_sl_labels_rows bars tp sl max_holding :
  ((max_holding <= -2)%Z -> create_tp_sl_labels bars tp sl max_holding = None) /\
  ((-1 <= max_holding)%Z ->
   let n := Z.to_nat (Z.of_nat (List.length bars) - max_holding - 1) in
   exists out idx,
     create_tp_sl_labels bars tp sl max_holding = Some out /\
     StronglySorted lt idx /\
     Forall2 (fun i row => (i < n)%nat /\ nth_error bars i = Some (fst row) /\
                label_at bars tp sl (Z.to_nat max_holding) i = Some (snd row)) idx out /\
     (forall i l, (i < n)%nat ->
        label_at bars tp sl (Z.to_nat max_holding) i = Some l -> In i idx) /\
     (List.length out <= n)%nat).
Proof.
  split.
  - intros Hm. unfold create_tp_sl_labels.
    rewrite loop_fails; [reflexivity | lia].
  - intros Hm n.
    destruct (loop_ok bars tp sl max_holding Hm n 0 (repeat None (List.length bars)))
      as [L [HL [HlenL HnL]]]; [unfold n; lia | apply repeat_length|].
    destruct (keep_spec bars L HlenL) as [idx [Hs [Hf Hc]]].
    assert (Hrep : forall j, (j < List.length bars)%nat ->
                   nth_error (repeat (@None Z) (List.length bars)) j = Some None)
      by (intros j Hj; apply nth_error_repeat; exact Hj).
    assert (Hrow : forall i row, row_of bars L i row ->
              (i < n)%nat /\ nth_error bars i = Some (fst row) /\
              label_at bars tp sl (Z.to_nat max_holding) i = Some (snd row)).
    { intros i [b l] [Hb Hli]. simpl in *.
      assert (Hi : (i < List.length bars)%nat) by (apply nth_error_Some; congruence).
      rewrite (HnL i Hi), (Hrep i Hi) in Hli.
      cbn [Nat.leb andb Nat.add] in Hli.
      destruct (Nat.ltb_spec i n); [|congruence].
      destruct (label_at bars tp sl (Z.to_nat max_holding) i) as [l'|];
        [|congruence]. injection Hli as ->. repeat split; [lia | exact Hb]. }
    exists (keep_labelled bars L), idx.
    unfold create_tp_sl_labels. fold n. rewrite HL.
    split; [reflexivity|]. split; [exact Hs|].
    assert (Hf' := Forall2_impl _ Hrow Hf).
    split; [exact Hf'|]. split.
    + intros i l Hi Hl. apply (Hc i l).
      assert (Hi' : (i < List.length bars)%nat) by (unfold n in Hi; lia).
      rewrite (HnL i Hi'). cbn [Nat.leb andb Nat.add].
      destruct (Nat.ltb_spec i n); [|lia]. rewrite Hl. reflexivity.
    + rewrite <- (Forall2_length Hf).
      replace n with (n - 0)%nat by lia. apply sorted_bound; [exact Hs|].
      clear -Hf'. induction Hf' as [|i row idx out [Hi _] _ IH]; constructor; [lia | exact IH].
Qed.

End LabelProofs.

(** * More properties of the ledger *)
Module LedgerProofs.
Import Paper PaperProofs.

Lemma sell_extends s p ts r s' :
  sell s p ts r = Some s' ->
  initial_balance s' = initial_balance s /\ fee s' = fee s /\
  exists ext, history s' = history s ++ ext /\ (List.length ext <= 1)%nat.
Proof.
  unfold sell. destruct (can_sell s); simpl negb; cbv iota.
  - destruct (match entry_notional s with Some n => Some n | None => _ end); [|discriminate].
    intros H. injection H as <-. simpl. repeat split. eexists. split; [reflexivity|]. simpl. lia.
  - intros H. injection H as <-. repeat split. exists []. rewrite app_nil_r. simpl. split; [reflexivity | lia].
Qed.

Lemma step_extends s o s' :
  step s o = Some s' ->
  initial_balance s' = initial_balance s /\ fee s' = fee s /\
  exists ext, history s' = history s ++ ext /\ (List.length ext <= 1)%nat.
Proof.
  assert (Hsame : initial_balance s = initial_balance s /\ fee s = fee s /\
                  exists ext, history s = history s ++ ext /\ (List.length ext <= 1)%nat).
  { repeat split. exists []. rewrite app_nil_r. simpl. split; [reflexivity | lia]. }
  destruct o as [p t x | p t r | h l t tp sl]; simpl.
  - unfold buy. destruct (can_buy s); simpl negb; cbv iota;
      [|intros H; injection H as <-; exact Hsame].
    destruct (Qle_bool _ 0); [intros H; injection H as <-; exact Hsame|].
    destruct (py_div _ p); [|discriminate].
    intros H. injection H as <-. simpl. repeat split. eexists. split; [reflexivity|]. simpl. lia.
  - apply sell_extends.
  - unfold check_tp_sl. destruct (can_sell s); simpl negb; cbv iota;
      [|intros H; injection H as <-; exact Hsame].
    destruct (entry_price s) as [e|]; [|discriminate].
    destruct (Qle_bool (e * (1 + tp)) h); destruct (Qle_bool l (e * (1 - sl))); simpl;
      solve [apply sell_extends | intros H; injection H as <-; exact Hsame].
Qed.

(** The ledger's trade history is append-only: a run of calls that raises
    nothing keeps every earlier record, adds at most one record per call,
    and never changes [initial_balance] or the fee rate. *)
Theorem run_history_append_only ops : forall s s',
  run s ops = Some s' ->
  initial_balance s' = initial_balance s /\ fee s' = fee s /\
  exists ext, history s' = history s ++ ext /\ (List.length ext <= List.length ops)%nat.
Proof.
  induction ops as [|o ops IH]; intros s s' H; simpl in H.
  - injection H as <-. repeat split. exists []. rewrite app_nil_r. simpl. split; [reflexivity | lia].
  - destruct (step s o) as [s1|] eqn:E; [|discriminate].
    destruct (step_extends s o s1 E) as [H1 [H2 [e1 [He1 Hl1]]]].
    destruct (IH s1 s' H) as [H3 [H4 [e2 [He2 Hl2]]]].
    split; [congruence|]. split; [congruence|].
    exists (e1 ++ e2). rewrite He2, He1, app_assoc. split; [reflexivity|].
    rewrite length_app. simpl. lia.
Qed.

(** A round trip from a Flat ledger: [buy(price, spend)] with
    [0 < spend <= balance] followed by [sell(price')] records a SELL whose
    pnl is [spend * ((1 - fee)^2 * price' / price - 1)], and the balance
    after the sell is the balance before the buy plus that pnl. *)
Theorem round_trip_pnl s price price' ts ts' spend reason :
  position s == 0 -> 0 < spend -> spend <= balance s -> 0 < price -> fee s < 1 ->
  exists s1 s2 pnl,
    buy s price ts (Some spend) = Some s1 /\
    sell s1 price' ts' reason = Some s2 /\
    history s2 = history s ++ [BUY ts price (position s1) spend (spend * fee s) (balance s - spend);
                               SELL ts' price' pnl (balance s2) reason] /\
    pnl == spend * ((1 - fee s) * (1 - fee s) * price' / price - 1) /\
    balance s2 == balance s + pnl.
Proof.
  intros Hp Hsp Hle Hpr Hf.
  assert (Hcb : can_buy s = true).
  { unfold can_buy. apply andb_true_iff. split.
    - apply Qeq_bool_iff. exact Hp.
    - apply Qltb_spec. lra. }
  assert (Hmin : py_min spend (balance s) = spend).
  { unfold py_min. destruct (Qle_bool spend (balance s)) eqn:E; qbool; [reflexivity | lra]. }
  assert (Hmax : py_max 0 spend = spend).
  { unfold py_max. destruct (Qle_bool spend 0) eqn:E; qbool; [lra | reflexivity]. }
  assert (Hz : Qle_bool spend 0 = false) by (apply Qle_bool_false; exact Hsp).
  assert (Hd : Qeq_bool price 0 = false).
  { destruct (Qeq_bool price 0) eqn:E; [qbool; lra | reflexivity]. }
  assert (Hq : 0 < (spend - spend * fee s) / price).
  { apply Qlt_shift_div_l; [exact Hpr|].
    assert (0 < spend * (1 - fee s)) by (apply Qmult_lt_0_compat; lra). nra. }
  unfold buy. rewrite Hcb. simpl negb. cbv iota zeta. rewrite Hmin, Hmax, Hz.
  unfold py_div. rewrite Hd.
  set (q := (spend - spend * fee s) / price) in *.
  set (s1 := mkPaper (initial_balance s) (balance s - spend) q (Some price) (Some spend) (fee s)
               (history s ++ [BUY ts price q spend (spend * fee s) (balance s - spend)])).
  assert (Hcs : can_sell s1 = true) by (apply can_sell_pos; exact Hq).
  exists s1. unfold sell. rewrite Hcs. simpl negb. cbv iota zeta.
  eexists. eexists. split; [reflexivity|]. split; [reflexivity|].
  simpl. split; [rewrite <- app_assoc; reflexivity|].
  split.
  - unfold q. field. intros H. lra.
  - lra.
Qed.

End LedgerProofs.

(** * More properties of the risk gate *)
Module RiskExtra.
Import Risk RiskProofs.

(** The checks run by [can_trade] once the day is settled. *)
Definition gate (b : Q) (now : Z) : M bool :=
  ex <- daily_loss_exceeded b ;;
  if ex then ret false else
  cd <- in_cooldown now ;;
  if cd then ret false else ret true.

Lemma gate_raises b now s :
  fst (gate b now s) = None <->
  exists sob, start_of_day_balance s = Some sob /\ sob == 0.
Proof.
  unfold gate, daily_loss_exceeded, daily_loss_pct, bind, get, ret, lift, py_div.
  destruct (start_of_day_balance s) as [sob|].
  - destruct (Qeq_bool sob 0) eqn:E.
    + split; [intros _; exists sob; split; [reflexivity|]; apply Qeq_bool_iff; exact E|reflexivity].
    + split.
      * destruct (Qle_bool _ _); [discriminate|].
        cbv [in_cooldown bind get ret]. destruct (cooldown_until s) as [c|];
          [destruct (Z.ltb now c)|]; discriminate.
      * intros [x [Hx Hz]]. injection Hx as <-. apply Qeq_bool_neq in E. contradiction.
  - split.
    + destruct (Qle_bool _ _); [discriminate|].
      cbv [in_cooldown bind get ret]. destruct (cooldown_until s) as [c|];
        [destruct (Z.ltb now c)|]; discriminate.
    + intros [x [Hx _]]. discriminate.
Qed.

(** [can_trade] raises (ZeroDivisionError) exactly when the start-of-day
    balance in effect for the call, the one just reset to [balance] on a new
    day or the stored one otherwise, is 0. *)
Theorem can_trade_raises_iff_zero_anchor s b now :
  fst (can_trade b now s) = None <->
  exists sob,
    start_of_day_balance
      (if day_differs (current_day s) (date now) then reset_state s b now else s) = Some sob /\
    sob == 0.
Proof.
  destruct (day_differs (current_day s) (date now)) eqn:E.
  - rewrite can_trade_new_day.
    + apply gate_raises.
    + intros H. rewrite H in E. simpl in E. rewrite Z.eqb_refl in E. discriminate.
  - rewrite can_trade_same_day.
    + apply gate_raises.
    + destruct (current_day s) as [d|]; [|discriminate]. simpl in E.
      apply negb_false_iff, Z.eqb_eq in E. subst. reflexivity.
Qed.

(** On the anchor's day, with a positive start-of-day balance, a balance at
    or below [start * (1 - max_daily_loss_pct / 100)] makes [can_trade]
    return False, whatever the cooldown, and leaves the engine unchanged. *)
Theorem daily_loss_blocks s b now sob :
  current_day s = Some (date now) -> start_of_day_balance s = Some sob -> 0 < sob ->
  b <= sob * (1 - max_daily_loss_pct s / 100) ->
  can_trade b now s = (Some false, s).
Proof.
  intros Hd Hs Hpos Hb. rewrite can_trade_same_day by exact Hd.
  unfold daily_loss_exceeded, daily_loss_pct, bind, get, ret, lift, py_div.
  rewrite Hs.
  assert (Hz : Qeq_bool sob 0 = false).
  { destruct (Qeq_bool sob 0) eqn:E; [qbool; lra | reflexivity]. }
  rewrite Hz.
  assert (Hge : max_daily_loss_pct s / 100 <= (sob - b) / sob).
  { apply Qle_shift_div_l; [exact Hpos|].
    assert (E1 : max_daily_loss_pct s / 100 * sob == sob - sob * (1 - max_daily_loss_pct s / 100))
      by ring.
    rewrite E1. lra. }
  assert (Hm : Qle_bool (max_daily_loss_pct s) ((sob - b) / sob * 100) = true).
  { apply Qle_bool_iff.
    assert (E2 : max_daily_loss_pct s == max_daily_loss_pct s / 100 * 100) by field.
    rewrite E2. lra. }
  rewrite Hm. reflexivity.
Qed.

(** On the anchor's day, with the daily-loss limit not reached, the cooldown
    ends at [cooldown_until]: from that time on [can_trade] returns True and
    leaves the engine unchanged, although the loss streak is kept. *)
Theorem cooldown_lifts_at_deadline s b now c :
  current_day s = Some (date now) -> daily_loss_exceeded b s = (Some false, s) ->
  cooldown_until s = Some c -> (c <= now)%Z ->
  can_trade b now s = (Some true, s).
Proof.
  intros Hd Hx Hc Hle. rewrite can_trade_same_day by exact Hd.
  unfold bind at 1. rewrite Hx.
  cbv [bind in_cooldown get ret]. rewrite Hc.
  replace (Z.ltb now c) with false by (symmetry; apply Z.ltb_ge; exact Hle).
  reflexivity.
Qed.

Lemma record_all_snoc s rs r :
  record_all s (rs ++ [r]) = snd (record_trade_result (fst r) (snd r) (record_all s rs)).
Proof. unfold record_all. rewrite fold_left_app. destruct r. reflexivity. Qed.

(** Over any sequence of results [record_trade_result] keeps the limits and
    the day anchor; the streak it leaves is the number of trailing losses,
    added to the streak it started from when no result was a win; and with
    [max_consecutive_losses >= 1] the cooldown is either the one it started
    from or ends [cooldown_minutes] after the time of one of the losing
    results. *)
Theorem record_all_streak s rs :
  (1 <= max_consecutive_losses s)%Z ->
  let s' := record_all s rs in
  max_daily_loss_pct s' = max_daily_loss_pct s /\
  max_consecutive_losses s' = max_consecutive_losses s /\
  cooldown_minutes s' = cooldown_minutes s /\
  start_of_day_balance s' = start_of_day_balance s /\
  current_day s' = current_day s /\
  (exists pre post, rs = pre ++ post /\ Forall (fun r => fst r < 0) post /\
     ((pre = [] /\
       consecutive_losses s' = (consecutive_losses s + Z.of_nat (List.length post))%Z) \/
      (exists pre' r, pre = pre' ++ [r] /\ 0 <= fst r /\
       consecutive_losses s' = Z.of_nat (List.length post)))) /\
  (cooldown_until s' = cooldown_until s \/
   exists pnl now, In (pnl, now) rs /\ pnl < 0 /\
     cooldown_until s' = Some (add_minutes now (cooldown_minutes s))).
Proof.
  intros Hmax. induction rs as [|[p t] rs IH] using rev_ind; cbv zeta in *.
  - repeat split; try reflexivity.
    + exists [], []. split; [reflexivity|]. split; [constructor|].
      left. split; [reflexivity | simpl; lia].
    + left. reflexivity.
  - destruct IH as [H1 [H2 [H3 [H4 [H5 [[pre [post [Hrs [Hpost Hc]]]] Hcd]]]]]].
    rewrite record_all_snoc, record_step. cbn [fst snd]. cbv zeta.
    cbn [max_daily_loss_pct max_consecutive_losses cooldown_minutes
         start_of_day_balance current_day consecutive_losses cooldown_until with_streak].
    split; [exact H1|]. split; [exact H2|]. split; [exact H3|].
    split; [exact H4|]. split; [exact H5|].
    destruct (Qltb p 0) eqn:Hp.
    + apply Qltb_spec in Hp. split.
      * exists pre, (post ++ [(p, t)]). split; [rewrite Hrs, app_assoc; reflexivity|].
        split; [apply Forall_app; split; [exact Hpost | constructor; [exact Hp | constructor]]|].
        rewrite length_app. simpl.
        destruct Hc as [[-> Hc] | [pre' [r [-> [Hr Hc]]]]].
        -- left. split; [reflexivity | lia].
        -- right. exists pre', r. split; [reflexivity|]. split; [exact Hr | lia].
      * destruct (Z.leb _ _).
        -- right. exists p, t. split; [apply in_or_app; right; left; reflexivity|].
           split; [exact Hp | rewrite H3; reflexivity].
        -- destruct Hcd as [Hcd | [pnl [now [Hin Hcd]]]]; [left; exact Hcd|].
           right. exists pnl, now. split; [apply in_or_app; left; exact Hin | exact Hcd].
    + apply Qltb_false in Hp. split.
      * exists (rs ++ [(p, t)]), []. split; [rewrite app_nil_r; reflexivity|].
        split; [constructor|]. right. exists rs, (p, t). split; [reflexivity|].
        split; [exact Hp | reflexivity].
      * replace (Z.leb (max_consecutive_losses (record_all s rs)) 0) with false
          by (symmetry; apply Z.leb_gt; lia).
        destruct Hcd as [Hcd | [pnl [now [Hin Hcd]]]]; [left; exact Hcd|].
        right. exists pnl, now. split; [apply in_or_app; left; exact Hin | exact Hcd].
Qed.

End RiskExtra.

(** * More properties of the sizer and the guard *)
Module SizingExtra.
Import Sizer SizerProofs.

Lemma clamp_le_x x hi : 0 <= x -> _clamp x 0 hi <= x.
Proof. intros Hx. unfold _clamp. apply py_max_le; [exact Hx | apply py_min_le_r]. Qed.

(** When it is not zero, the amount of a sizing result lies between
    [min_order_krw] and the allocation cap. *)
Lemma size_positive_bounds p e stop pr sz :
  size_from_stop_pct p e stop pr = Some sz -> 0 < krw_to_spend sz ->
  min_order_krw p <= krw_to_spend sz /\
  krw_to_spend sz <= e * (max_allocation_pct p / 100).
Proof.
  unfold size_from_stop_pct.
  destruct (Qle_bool stop 0).
  { intros H. injection H as <-. simpl. lra. }
  unfold py_div at 1. rewrite denom_nonzero. cbv zeta.
  set (x := e * (risk_per_trade_pct p / 100) /
            py_max (stop + fee_roundtrip_pct p / 100) tiny).
  set (cap := e * (max_allocation_pct p / 100)).
  destruct (Qltb (_clamp x 0 cap) (min_order_krw p)) eqn:Hmin.
  { intros H. injection H as <-. simpl. lra. }
  apply Qltb_false in Hmin.
  assert (Hk : forall sz, sz = mkResult (_clamp x 0 cap) (qty sz) (stop_price sz) (risk_krw sz) ->
                 0 < krw_to_spend sz ->
                 min_order_krw p <= krw_to_spend sz /\ krw_to_spend sz <= cap).
  { intros sz' -> Hpos. simpl in *. split; [exact Hmin|].
    unfold _clamp, py_max in *. destruct (Qle_bool (py_min cap x) 0); [lra|].
    apply CandleProofs.py_min_le_l. }
  destruct pr as [pr|].
  - unfold py_div. destruct (Qeq_bool pr 0); [discriminate|].
    intros H. injection H as <-. apply Hk. reflexivity.
  - intros H. injection H as <-. apply Hk. reflexivity.
Qed.

(** With a price, the [risk_krw] of a sizing result, [amount * (stop_pct +
    fee_roundtrip_pct / 100)], never exceeds the risk budget
    [equity * risk_per_trade_pct / 100] when the budget is non-negative; it
    equals the budget when the amount is not zero, the allocation cap does
    not bind and [stop_pct + fee_roundtrip_pct / 100 >= 1e-9]. *)
Theorem risk_within_budget p e stop pr r :
  0 <= e * (risk_per_trade_pct p / 100) ->
  size_from_stop_pct p e stop (Some pr) = Some r ->
  risk_krw r <= e * (risk_per_trade_pct p / 100) /\
  (0 < krw_to_spend r -> tiny <= stop + fee_roundtrip_pct p / 100 ->
   unclamped p e stop <= e * (max_allocation_pct p / 100) ->
   risk_krw r == e * (risk_per_trade_pct p / 100)).
Proof.
  intros HB. unfold size_from_stop_pct.
  destruct (Qle_bool stop 0).
  { intros H. injection H as <-. simpl. split; [exact HB | intros; lra]. }
  unfold py_div at 1. rewrite denom_nonzero. cbv zeta.
  unfold unclamped.
  set (B := e * (risk_per_trade_pct p / 100)) in *.
  set (rpi := stop + fee_roundtrip_pct p / 100).
  set (m := py_max rpi tiny).
  set (cap := e * (max_allocation_pct p / 100)).
  assert (Hm : 0 < m) by apply denom_pos.
  assert (Hx : 0 <= B / m) by (apply Qle_shift_div_l; lra).
  assert (Hrm : rpi <= m) by apply py_max_ge_l.
  assert (Hk0 : 0 <= _clamp (B / m) 0 cap) by apply clamp_nonneg.
  assert (Hkx : _clamp (B / m) 0 cap <= B / m) by (apply clamp_le_x; exact Hx).
  assert (HBm : B / m * m == B) by (field; lra).
  destruct (Qltb (_clamp (B / m) 0 cap) (min_order_krw p)).
  { intros H. injection H as <-. simpl. split; [exact HB | intros; lra]. }
  unfold py_div. destruct (Qeq_bool pr 0); [discriminate|].
  intros H. injection H as <-. simpl.
  set (k := _clamp (B / m) 0 cap) in *.
  split.
  - assert (k * rpi <= k * m) by nra.
    assert (k * m <= B / m * m) by nra.
    lra.
  - intros Hpos Htiny Hcap.
    assert (Em : m = rpi).
    { unfold m, py_max. destruct (Qle_bool tiny rpi) eqn:E; qbool; [reflexivity | lra]. }
    assert (Ek : k == B / m).
    { unfold k, _clamp, py_max, py_min.
      destruct (Qle_bool cap (B / m)) eqn:E1; destruct (Qle_bool _ 0) eqn:E2; qbool; lra. }
    rewrite Ek. rewrite Em in HBm |- *. exact HBm.
Qed.

End SizingExtra.

Module GuardExtra.
Import Risk Sizer Guard SizingExtra.

(** An entry that [evaluate_entry] allows passed the risk gate and carries
    a sizing whose amount is positive, at least [min_order_krw] and at most
    [equity * max_allocation_pct / 100]. *)
Theorem allowed_entry_sized sizer equity now price stop_pct atr_pct mult s d :
  fst (evaluate_entry sizer equity now price stop_pct atr_pct mult s) = Some d ->
  allowed d = true ->
  fst (can_trade equity now s) = Some true /\
  exists sz, sizing d = Some sz /\
    0 < krw_to_spend sz /\ min_order_krw sizer <= krw_to_spend sz /\
    krw_to_spend sz <= equity * (max_allocation_pct sizer / 100).
Proof.
  unfold evaluate_entry, bind at 1.
  destruct (can_trade equity now s) as [[ok|] s1]; [|discriminate].
  destruct ok; simpl negb; cbv iota.
  2: { cbv [ret]. simpl. intros H. injection H as <-. discriminate. }
  assert (Hdec : forall r d, r = size_from_stop_pct sizer equity (match stop_pct with
                                 | Some sp => sp | None => match atr_pct with
                                   | Some a => a * mult | None => 0 end end) (Some price) ->
             fst ((sz <- lift r ;;
                  if Qle_bool (krw_to_spend sz) 0
                  then ret (mkDecision false "size_zero_or_below_min" None)
                  else ret (mkDecision true "ok" (Some sz))) s1) = Some d ->
             allowed d = true ->
             Some true = Some true /\
             exists sz, sizing d = Some sz /\
               0 < krw_to_spend sz /\ min_order_krw sizer <= krw_to_spend sz /\
               krw_to_spend sz <= equity * (max_allocation_pct sizer / 100)).
  { intros r d' Hr. cbv [bind lift ret]. destruct r as [sz|] eqn:Es; [|discriminate].
    destruct (Qle_bool (krw_to_spend sz) 0) eqn:Ez; simpl; intros H; injection H as <-;
      [discriminate|].
    intros _. split; [reflexivity|]. exists sz. apply Qle_bool_false in Ez.
    split; [reflexivity|]. split; [exact Ez|].
    symmetry in Hr. apply (size_positive_bounds _ _ _ _ _ Hr Ez). }
  destruct stop_pct as [sp|].
  - apply Hdec. reflexivity.
  - destruct atr_pct as [a|].
    + apply Hdec. reflexivity.
    + cbv [ret]. simpl. intros H. injection H as <-. discriminate.
Qed.

End GuardExtra.

(** * More properties of the candle builder *)
Module CandleExtra.
Import Candles CandleProofs.

(** The ticks of market [m], in order. *)
Definition for_market (m : string) (ts : list Tick) : list Tick :=
  filter (fun t => String.eqb (t_market t) m) ts.

Lemma feed_cons b t ts :
  feed b (t :: ts) =
    (fst (update_trade b (t_market t) (t_price t) (t_vol t) (t_ms t))
       :: fst (feed (snd (update_trade b (t_market t) (t_price t) (t_vol t) (t_ms t))) ts),
     snd (feed (snd (update_trade b (t_market t) (t_price t) (t_vol t) (t_ms t))) ts)).
Proof.
  simpl. destruct (update_trade _ _ _ _ _) as [out b']. simpl. destruct (feed b' ts). reflexivity.
Qed.

Lemma update_fst b1 b2 m p v ms :
  b1 m = b2 m -> fst (update_trade b1 m p v ms) = fst (update_trade b2 m p v ms).
Proof. intros H. unfold update_trade. rewrite H. destruct (b2 m) as [c|]; [destruct (Z.eqb _ _)|]; reflexivity. Qed.

Lemma update_snd b m p v ms x :
  snd (update_trade b m p v ms) x =
    if String.eqb x m then Some (snd (fst (update_trade b m p v ms))) else b x.
Proof.
  unfold update_trade. destruct (b m) as [c|]; [destruct (Z.eqb _ _)|]; reflexivity.
Qed.

(** Ticks of other markets do not affect a market's candles: on the ticks of
    [m], a mixed stream returns the same [(closed, current)] pairs, and
    leaves the same candle for [m], as the stream of [m]'s ticks alone. *)
Theorem feed_market_independent m ts : forall b1 b2,
  b1 m = b2 m ->
  map snd (filter (fun p => String.eqb (t_market (fst p)) m) (combine ts (fst (feed b1 ts))))
    = fst (feed b2 (for_market m ts)) /\
  snd (feed b1 ts) m = snd (feed b2 (for_market m ts)) m.
Proof.
  induction ts as [|t ts IH]; intros b1 b2 H; [split; [reflexivity | exact H]|].
  rewrite feed_cons. cbn [combine filter map fst snd].
  unfold for_market. cbn [filter]. fold (for_market m ts).
  destruct (String.eqb (t_market t) m) eqn:E.
  - apply String.eqb_eq in E. rewrite feed_cons. cbn [map fst snd]. rewrite E.
    assert (Hf : fst (update_trade b1 m (t_price t) (t_vol t) (t_ms t)) =
                 fst (update_trade b2 m (t_price t) (t_vol t) (t_ms t))) by (apply update_fst; exact H).
    assert (Hs : snd (update_trade b1 m (t_price t) (t_vol t) (t_ms t)) m =
                 snd (update_trade b2 m (t_price t) (t_vol t) (t_ms t)) m).
    { rewrite !update_snd, String.eqb_refl, Hf. reflexivity. }
    destruct (IH _ _ Hs) as [IH1 IH2].
    rewrite Hf, IH1. split; [reflexivity | exact IH2].
  - assert (Hs : snd (update_trade b1 (t_market t) (t_price t) (t_vol t) (t_ms t)) m = b2 m).
    { rewrite update_snd. rewrite String.eqb_sym, E. exact H. }
    exact (IH _ _ Hs).
Qed.

Lemma last_cons {A} (l : list A) : forall a d, last (a :: l) d = last l a.
Proof.
  induction l as [|x l IH]; intros a d; [reflexivity|].
  change (last (a :: x :: l) d) with (last (x :: l) d). rewrite !IH. reflexivity.
Qed.

Lemma feed_same_bucket m B ts : forall b cur,
  b m = Some cur -> time cur = B ->
  Forall (fun t => t_market t = m /\ _bucket (t_ms t * 1000) = B) ts ->
  closed_candles (fst (feed b ts)) = [] /\
  snd (feed b ts) m =
    Some (mkCandle B (open cur)
            (fold_left py_max (map t_price ts) (high cur))
            (fold_left py_min (map t_price ts) (low cur))
            (last (map t_price ts) (close cur))
            (fold_left Qplus (map t_vol ts) (volume cur))).
Proof.
  induction ts as [|t ts IH]; intros b cur Hb Ht Hall.
  - simpl. split; [reflexivity|]. rewrite Hb. destruct cur; simpl in *. subst. reflexivity.
  - apply Forall_cons_iff in Hall as [[Hm Hbk] Hall].
    set (cur' := mkCandle B (open cur) (py_max (high cur) (t_price t))
                   (py_min (low cur) (t_price t)) (t_price t) (volume cur + t_vol t)).
    assert (Hu : update_trade b (t_market t) (t_price t) (t_vol t) (t_ms t) =
                 ((None, cur'), set b m cur')).
    { rewrite Hm. unfold update_trade. rewrite Hb, Hbk, Ht, Z.eqb_refl. reflexivity. }
    rewrite feed_cons, Hu. cbn [fst snd map].
    destruct (IH (set b m cur') cur' (set_here b m cur') eq_refl Hall) as [H1 H2].
    split.
    + unfold closed_candles in *. cbn [flat_map fst app]. exact H1.
    + rewrite H2, last_cons. reflexivity.
Qed.

(** Within one 5-minute bucket the builder closes nothing and its candle
    for the market is the aggregate of the bucket's ticks: open is the
    first price, high the running [max], low the running [min], close the
    last price and volume the sum; a candle of another bucket held before is
    emitted as the closed candle. *)
Theorem candle_aggregates_bucket b m B t0 ts :
  (forall c, b m = Some c -> time c <> B) ->
  Forall (fun t => t_market t = m /\ _bucket (t_ms t * 1000) = B) (t0 :: ts) ->
  closed_candles (fst (feed b (t0 :: ts))) =
    match b m with Some c => [c] | None => [] end /\
  snd (feed b (t0 :: ts)) m =
    Some (mkCandle B (t_price t0)
            (fold_left py_max (map t_price ts) (t_price t0))
            (fold_left py_min (map t_price ts) (t_price t0))
            (last (map t_price ts) (t_price t0))
            (fold_left Qplus (map t_vol ts) (t_vol t0))).
Proof.
  intros Hprev Hall. pose proof Hall as Hall0.
  apply Forall_cons_iff in Hall as [[Hm Hbk] Hall].
  rewrite feed_cons. rewrite Hm.
  set (c0 := mkCandle B (t_price t0) (t_price t0) (t_price t0) (t_price t0) (t_vol t0)).
  assert (Hu : update_trade b m (t_price t0) (t_vol t0) (t_ms t0) =
               ((match b m with Some c => Some c | None => None end, c0), set b m c0)).
  { unfold update_trade. rewrite Hbk. destruct (b m) as [c|] eqn:Hbm; [|reflexivity].
    specialize (Hprev c eq_refl).
    destruct (Z.eqb_spec (time c) B); [contradiction | reflexivity]. }
  rewrite Hu. simpl.
  destruct (feed_same_bucket m B ts (set b m c0) c0 (set_here b m c0) eq_refl Hall) as [H1 H2].
  split.
  - unfold closed_candles in *. simpl. rewrite H1. destruct (b m); reflexivity.
  - exact H2.
Qed.

End CandleExtra.

(** * Properties of the replay loop and the realtime bot *)
Module BotProofs.
Import Paper PaperProofs PaperInv Risk RiskProofs RiskExtra Sizer SizerProofs SizingExtra
       Guard Candles Bot.

(** Every start-of-day balance the engine holds is positive. *)
Definition anchor_pos (rk : RiskEngine) : Prop :=
  forall sob, start_of_day_balance rk = Some sob -> 0 < sob.

Lemma can_trade_ok rk b now :
  anchor_pos rk -> 0 < b ->
  exists ok, can_trade b now rk = (Some ok, snd (can_trade b now rk)) /\
             anchor_pos (snd (can_trade b now rk)).
Proof.
  intros Ha Hb.
  assert (Hst : anchor_pos (snd (can_trade b now rk))).
  { rewrite can_trade_state. destruct (day_differs _ _).
    - intros sob H. cbv in H. injection H as <-. exact Hb.
    - exact Ha. }
  assert (Hnr : fst (can_trade b now rk) <> None).
  { intros H. destruct (day_differs (current_day rk) (date now)) eqn:E.
    - rewrite can_trade_new_day in H.
      + apply gate_raises in H as [sob [Hs Hz]]. cbv in Hs. injection Hs as <-. lra.
      + intros Hd. rewrite Hd in E. simpl in E. rewrite Z.eqb_refl in E. discriminate.
    - rewrite can_trade_same_day in H.
      + apply gate_raises in H as [sob [Hs Hz]]. apply Ha in Hs. lra.
      + destruct (current_day rk) as [d|]; [|discriminate]. simpl in E.
        apply negb_false_iff, Z.eqb_eq in E. subst. reflexivity. }
  destruct (can_trade b now rk) as [[ok|] s'] eqn:E; [|contradiction].
  exists ok. split; [reflexivity | exact Hst].
Qed.

Lemma size_some p e stop pr :
  ~ pr == 0 -> exists r, size_from_stop_pct p e stop (Some pr) = Some r.
Proof.
  intros Hpr. unfold size_from_stop_pct.
  destruct (Qle_bool stop 0); [eexists; reflexivity|].
  unfold py_div at 1. rewrite denom_nonzero. cbv zeta.
  destruct (Qltb _ _); [eexists; reflexivity|].
  unfold py_div. destruct (Qeq_bool pr 0) eqn:E; [qbool; contradiction | eexists; reflexivity].
Qed.

Lemma evaluate_entry_snd sizer equity now price stop_pct atr_pct mult s :
  snd (evaluate_entry sizer equity now price stop_pct atr_pct mult s) =
    snd (can_trade equity now s).
Proof.
  unfold evaluate_entry, bind at 1.
  destruct (can_trade equity now s) as [[ok|] s1]; [|reflexivity].
  destruct ok; simpl; [|reflexivity].
  destruct stop_pct as [sp|]; [|destruct atr_pct as [a|]];
    cbv [bind lift ret];
    repeat match goal with
           | |- context [match ?x with _ => _ end] => destruct x
           end; reflexivity.
Qed.

(** With a positive equity and price, a stop and a positive anchor,
    [evaluate_entry] raises nothing; an allowed decision has a positive
    amount. *)
Lemma evaluate_entry_ok sizer equity now price sl m rk :
  anchor_pos rk -> 0 < equity -> 0 < price ->
  exists d, fst (evaluate_entry sizer equity now price (Some sl) None m rk) = Some d /\
    anchor_pos (snd (evaluate_entry sizer equity now price (Some sl) None m rk)) /\
    (allowed d = true -> exists sz, sizing d = Some sz /\ 0 < krw_to_spend sz).
Proof.
  intros Ha He Hp.
  rewrite evaluate_entry_snd.
  destruct (can_trade_ok rk equity now Ha He) as [ok [Hct Hst]].
  destruct (size_some sizer equity sl price) as [r Hr]; [lra|].
  unfold evaluate_entry, bind at 1. rewrite Hct.
  destruct ok; simpl negb; cbv iota.
  - cbv zeta. cbv [bind lift ret]. rewrite Hr.
    destruct (Qle_bool (krw_to_spend r) 0) eqn:Ez.
    + eexists. split; [reflexivity|]. split; [exact Hst | discriminate].
    + eexists. split; [reflexivity|]. split; [exact Hst|].
      intros _. exists r. split; [reflexivity|]. apply Qle_bool_false in Ez. exact Ez.
  - cbv [ret]. eexists. split; [reflexivity|]. split; [exact Hst | discriminate].
Qed.

Lemma record_anchor pnl now rk :
  anchor_pos rk -> anchor_pos (snd (record_trade_result pnl now rk)).
Proof. intros Ha. rewrite record_step. exact Ha. Qed.

Lemma manage_exit_ok p rk c tp sl :
  strong_inv p -> anchor_pos rk -> 0 < low c -> -1 <= tp ->
  exists p' rk', manage_exit p rk c tp sl = Some (p', rk') /\ strong_inv p' /\ anchor_pos rk'.
Proof.
  intros Hs Ha Hl Htp. unfold manage_exit.
  destruct (check_inv p (high c) (low c) (time c) tp sl Hs Hl Htp) as [p' [-> Hs']].
  destruct (negb (can_sell p')); [|exists p', rk; tauto].
  destruct (last_sell_pnl (history p')) as [pnl|].
  - exists p', (snd (record_trade_result pnl (time c) rk)).
    split; [reflexivity|]. split; [exact Hs' | apply record_anchor; exact Ha].
  - exists p', rk. tauto.
Qed.

(** A buy with a positive amount from a state where [can_buy] holds opens a
    position. *)
Lemma buy_opens p price ts x :
  strong_inv p -> can_buy p = true -> 0 < x -> 0 < price ->
  exists p', buy p price ts (Some x) = Some p' /\ strong_inv p' /\ 0 < position p'.
Proof.
  intros Hs Hcb Hx Hp.
  destruct (buy_inv p price ts (Some x) Hs Hp) as [p' [Hb Hs']].
  exists p'. split; [exact Hb|]. split; [exact Hs'|].
  pose proof Hs as [[Hbal _] [_ Hf]].
  pose proof Hcb as Hcb'. unfold can_buy in Hcb'. apply andb_true_iff in Hcb' as [_ Hbp].
  apply Qltb_spec in Hbp.
  unfold buy in Hb. rewrite Hcb in Hb. simpl negb in Hb. cbv iota zeta in Hb.
  assert (Hsp : 0 < py_max 0 (py_min x (balance p))).
  { unfold py_max, py_min.
    destruct (Qle_bool x (balance p)) eqn:E1;
      [destruct (Qle_bool x 0) eqn:E2 | destruct (Qle_bool (balance p) 0) eqn:E2]; qbool; lra. }
  set (spend := py_max 0 (py_min x (balance p))) in *.
  destruct (Qle_bool spend 0) eqn:Ez; [qbool; lra|].
  unfold py_div in Hb. destruct (Qeq_bool price 0) eqn:Ep; [discriminate|].
  injection Hb as <-. simpl.
  apply Qlt_shift_div_l; [exact Hp|].
  assert (0 < spend * (1 - fee p)) by (apply Qmult_lt_0_compat; lra). nra.
Qed.

Lemma try_entry_ok p rk c sl :
  strong_inv p -> anchor_pos rk -> can_buy p = true -> 0 < close c ->
  exists p' rk' bought, try_entry p rk c sl = Some (p', rk', bought) /\
    strong_inv p' /\ anchor_pos rk' /\
    (if bought then 0 < position p' else p' = p).
Proof.
  intros Hs Ha Hcb Hc. unfold try_entry.
  assert (Hbal : 0 < balance p).
  { unfold can_buy in Hcb. apply andb_true_iff in Hcb as [_ H]. apply Qltb_spec in H. exact H. }
  destruct (evaluate_entry_ok bot_sizer (balance p) (time c) (close c) sl 1 rk Ha Hbal Hc)
    as [d [Hd [Hst Hal]]].
  destruct (evaluate_entry bot_sizer (balance p) (time c) (close c) (Some sl) None 1 rk)
    as [o rk'] eqn:E.
  simpl in Hd, Hst. subst o.
  destruct (allowed d) eqn:Hallow.
  - destruct (Hal eq_refl) as [sz [-> Hpos]].
    destruct (buy_opens p (close c) (time c) (krw_to_spend sz) Hs Hcb Hpos Hc)
      as [p' [-> [Hs' Hpp]]].
    exists p', rk', true. tauto.
  - exists p, rk', false. tauto.
Qed.

Lemma push_window_len hl w c k :
  List.length w = Nat.min hl k ->
  List.length (push_window hl w c) = Nat.min hl (S k).
Proof.
  intros H. unfold push_window. rewrite length_app. simpl.
  destruct (Nat.ltb_spec hl (List.length w + 1)).
  - destruct (w ++ [c]) as [|x r] eqn:E.
    + apply (f_equal (@List.length Candle)) in E. rewrite length_app in E. simpl in E. lia.
    + simpl. apply (f_equal (@List.length Candle)) in E. rewrite length_app in E. simpl in E. lia.
  - rewrite length_app. simpl. lia.
Qed.

Lemma push_window_suffix hl w c pre :
  exists pre', pre ++ w ++ [c] = pre' ++ push_window hl w c.
Proof.
  unfold push_window. destruct (Nat.ltb hl (List.length (w ++ [c]))).
  - destruct (w ++ [c]) as [|x r]; [exists pre; reflexivity|].
    exists (pre ++ [x]). simpl. rewrite <- app_assoc. reflexivity.
  - exists pre. reflexivity.
Qed.

(** The replay loop over candles whose low and close prices are positive,
    with [tp >= -1] and a non-negative initial balance, raises nothing: the
    ledger keeps the AccountState invariant and every start-of-day balance
    of the risk engine is positive, so [can_trade] never divides by 0. *)
Theorem replay_never_raises predict entry_threshold tp sl history_len initial_balance cs :
  0 <= initial_balance -> -1 <= tp ->
  Forall (fun c => 0 < low c /\ 0 < close c) cs ->
  exists st,
    replay_run predict entry_threshold tp sl history_len (replay_init initial_balance) cs
      = Some st /\
    account_inv (r_paper st) /\
    (forall sob, start_of_day_balance (r_risk st) = Some sob -> 0 < sob).
Proof.
  intros Hib Htp Hcs.
  assert (Hgen : forall cs st, strong_inv (r_paper st) -> anchor_pos (r_risk st) ->
            Forall (fun c => 0 < low c /\ 0 < close c) cs ->
            exists st', replay_run predict entry_threshold tp sl history_len st cs = Some st' /\
              strong_inv (r_paper st') /\ anchor_pos (r_risk st')).
  { clear Hcs. induction cs0 as [|c cs0 IH]; intros st Hs Ha Hc.
    - exists st. tauto.
    - apply Forall_cons_iff in Hc as [[Hl Hcl] Hc]. simpl.
      unfold replay_step.
      assert (Hex : exists p rk,
                (if can_sell (r_paper st) then manage_exit (r_paper st) (r_risk st) c tp sl
                 else Some (r_paper st, r_risk st)) = Some (p, rk) /\
                strong_inv p /\ anchor_pos rk).
      { destruct (can_sell (r_paper st)).
        - apply manage_exit_ok; assumption.
        - exists (r_paper st), (r_risk st). tauto. }
      destruct Hex as [p [rk [-> [Hp Hrk]]]].
      assert (Hen : exists p' rk',
                (if can_buy p then
                   match predict (push_window history_len (r_history st) c) with
                   | None => Some (p, rk)
                   | Some proba =>
                       if Qle_bool entry_threshold proba then
                         match try_entry p rk c sl with
                         | Some (p', rk', _) => Some (p', rk')
                         | None => None
                         end
                       else Some (p, rk)
                   end
                 else Some (p, rk)) = Some (p', rk') /\ strong_inv p' /\ anchor_pos rk').
      { destruct (can_buy p) eqn:Hcb; [|exists p, rk; tauto].
        destruct (predict _) as [proba|]; [|exists p, rk; tauto].
        destruct (Qle_bool entry_threshold proba); [|exists p, rk; tauto].
        destruct (try_entry_ok p rk c sl Hp Hrk Hcb Hcl) as [p' [rk' [b [-> [Hp' [Hrk' _]]]]]].
        exists p', rk'. tauto. }
      destruct Hen as [p' [rk' [-> [Hp' Hrk']]]].
      apply IH; assumption. }
  destruct (Hgen cs (replay_init initial_balance)) as [st [Hr [[Hinv _] Ha]]].
  - unfold strong_inv, account_inv, replay_init, Paper.init; simpl.
    split; [|split; [discriminate | reflexivity]].
    split; [exact Hib|]. split; [lra|]. split; split; intros H; try lra; congruence.
  - intros sob H. discriminate.
  - exact Hcs.
  - exists st. split; [exact Hr|]. split; [exact Hinv | exact Ha].
Qed.

(** A replay that raises nothing ends with one equity point per candle and
    a feature window holding the last [min(history_len, len(candles))]
    candles. *)
Theorem replay_window_and_curve predict entry_threshold tp sl history_len st0 cs st :
  r_history st0 = [] -> r_equity st0 = [] ->
  replay_run predict entry_threshold tp sl history_len st0 cs = Some st ->
  List.length (r_equity st) = List.length cs /\
  List.length (r_history st) = Nat.min history_len (List.length cs) /\
  exists pre, cs = pre ++ r_history st.
Proof.
  intros Hh He.
  assert (Hgen : forall cs done st0 st,
            List.length (r_history st0) = Nat.min history_len (List.length done) ->
            List.length (r_equity st0) = List.length done ->
            (exists pre, done = pre ++ r_history st0) ->
            replay_run predict entry_threshold tp sl history_len st0 cs = Some st ->
            List.length (r_equity st) = List.length (done ++ cs) /\
            List.length (r_history st) = Nat.min history_len (List.length (done ++ cs)) /\
            exists pre, done ++ cs = pre ++ r_history st).
  { induction cs0 as [|c cs0 IH]; intros done s0 s1 Hl He' Hpre Hrun.
    - simpl in Hrun. injection Hrun as <-. rewrite app_nil_r. tauto.
    - simpl in Hrun. destruct (replay_step predict entry_threshold tp sl history_len s0 c)
        as [s0'|] eqn:Es; [|discriminate].
      replace (done ++ c :: cs0) with ((done ++ [c]) ++ cs0) by (rewrite <- app_assoc; reflexivity).
      apply (IH (done ++ [c]) s0'); [| | |exact Hrun].
      + unfold replay_step in Es.
        destruct (if can_sell (r_paper s0) then _ else _) as [[p rk]|]; [|discriminate].
        destruct (if can_buy p then _ else _) as [[p' rk']|]; [|discriminate].
        injection Es as <-. simpl. rewrite length_app. simpl.
        rewrite Nat.add_1_r. apply push_window_len. exact Hl.
      + unfold replay_step in Es.
        destruct (if can_sell (r_paper s0) then _ else _) as [[p rk]|]; [|discriminate].
        destruct (if can_buy p then _ else _) as [[p' rk']|]; [|discriminate].
        injection Es as <-. simpl. rewrite !length_app. simpl. lia.
      + unfold replay_step in Es.
        destruct (if can_sell (r_paper s0) then _ else _) as [[p rk]|]; [|discriminate].
        destruct (if can_buy p then _ else _) as [[p' rk']|]; [|discriminate].
        injection Es as <-. simpl. destruct Hpre as [pre ->].
        rewrite <- app_assoc. apply push_window_suffix. }
  intros Hrun. apply (Hgen cs [] st0 st); [rewrite Hh; simpl; lia | rewrite He; reflexivity
                                          | exists []; rewrite Hh; reflexivity | exact Hrun].
Qed.

End BotProofs.

Module RealtimeProofs.
Import Paper PaperProofs PaperInv Risk Sizer Guard Candles Bot BotProofs.

(** The invariant of the realtime bot. *)
Definition bot_inv (bot : RealtimeBot) : Prop :=
  strong_inv (b_paper bot) /\ anchor_pos (b_risk bot) /\
  (open_market bot <> None <-> 0 < position (b_paper bot)) /\
  (open_tp bot = None \/ open_tp bot = Some TP_PCT) /\
  (forall m c, b_builder bot m = Some c -> 0 < low c /\ 0 < close c) /\
  (forall m, In m MARKETS -> b_history bot m <> None).

Lemma tp_ok x : x = None \/ x = Some TP_PCT -> -1 <= or_default x TP_PCT.
Proof. intros [-> | ->]; cbv; discriminate. Qed.

Lemma on_candle_close_ok predict bot market c :
  bot_inv bot -> In market MARKETS -> 0 < low c -> 0 < close c ->
  exists bot', on_candle_close predict bot market c = Some bot' /\ bot_inv bot'.
Proof.
  intros [Hs [Ha [Hom [Htp [Hb Hh]]]]] Hin Hl Hc.
  unfold on_candle_close.
  destruct (b_history bot market) as [w|] eqn:Ehw; [|exfalso; exact (Hh market Hin Ehw)].
  set (hist := fun m => if String.eqb m market then Some (push_window HISTORY_LEN w c)
                        else b_history bot m).
  assert (Hhist : forall m, In m MARKETS -> hist m <> None).
  { intros m Hm. unfold hist. destruct (String.eqb m market); [discriminate | apply Hh; exact Hm]. }
  match goal with
  | |- exists _, match ?e with _ => _ end = _ /\ _ =>
      assert (Hman : exists b1, e = Some b1 /\ bot_inv b1 /\ b_builder b1 = b_builder bot)
  end.
  { destruct ((match open_market bot with Some m => String.eqb m market | None => false end)
              && can_sell (b_paper bot)) eqn:Em.
    - apply andb_true_iff in Em as [Em Hcs]. apply Qltb_spec in Hcs.
      destruct (check_inv (b_paper bot) (high c) (low c) (time c)
                  (or_default (open_tp bot) TP_PCT) (or_default (open_sl bot) SL_PCT) Hs Hl
                  (tp_ok _ Htp)) as [p' [-> Hs']].
      destruct (can_sell p') eqn:Hcs'; simpl negb; cbv iota.
      + eexists. split; [reflexivity|]. split; [|reflexivity].
        apply Qltb_spec in Hcs'.
        refine (conj Hs' (conj Ha (conj _ (conj Htp (conj Hb Hhist))))); simpl.
        split; [intros _; exact Hcs' | intros _; apply Hom; exact Hcs].
      + eexists. split; [reflexivity|]. split; [|reflexivity].
        apply Qltb_false in Hcs'.
        pose proof Hs' as [[_ [Hp0 _]] _].
        refine (conj Hs' (conj _ (conj _ (conj _ (conj Hb Hhist))))); simpl.
        * destruct (last_sell_pnl (history p')); [apply record_anchor|]; exact Ha.
        * split; [intros H; exfalso; apply H; reflexivity | intros H; lra].
        * left. reflexivity.
    - eexists. split; [reflexivity|]. split; [|reflexivity].
      exact (conj Hs (conj Ha (conj Hom (conj Htp (conj Hb Hhist))))). }
  destruct Hman as [b1 [-> [Hi1 Hbb]]].
  pose proof Hi1 as [Hs1 [Ha1 [Hom1 [Htp1 [Hb1 Hh1]]]]].
  destruct (can_buy (b_paper b1)) eqn:Hcb; simpl negb; cbv iota.
  2: { eexists. split; [reflexivity | exact Hi1]. }
  destruct (predict market _) as [proba|].
  2: { eexists. split; [reflexivity | exact Hi1]. }
  destruct (Qltb proba ENTRY_THRESHOLD).
  { eexists. split; [reflexivity | exact Hi1]. }
  assert (Hbal : 0 < balance (b_paper b1)).
  { unfold can_buy in Hcb. apply andb_true_iff in Hcb as [_ H]. apply Qltb_spec in H. exact H. }
  destruct (evaluate_entry_ok bot_sizer (balance (b_paper b1)) (time c) (close c) SL_PCT 1
              (b_risk b1) Ha1 Hbal Hc) as [d [Hd [Hst Hal]]].
  destruct (evaluate_entry bot_sizer (balance (b_paper b1)) (time c) (close c) (Some SL_PCT)
              None 1 (b_risk b1)) as [o rk'] eqn:E.
  simpl in Hd, Hst. subst o.
  destruct (allowed d) eqn:Hallow.
  - destruct (Hal eq_refl) as [sz [-> Hpos]].
    destruct (buy_opens (b_paper b1) (close c) (time c) (krw_to_spend sz) Hs1 Hcb Hpos Hc)
      as [p' [-> [Hs' Hpp]]].
    eexists. split; [reflexivity|].
    refine (conj Hs' (conj Hst (conj _ (conj _ (conj Hb1 Hh1))))); simpl.
    + split; [intros _; exact Hpp | discriminate].
    + right. reflexivity.
  - destruct (sizing d); eexists; (split; [reflexivity|]);
      exact (conj Hs1 (conj Hst (conj Hom1 (conj Htp1 (conj Hb1 Hh1))))).
Qed.

Lemma update_pos b m p v ms :
  (forall m c, b m = Some c -> 0 < low c /\ 0 < close c) -> 0 < p ->
  (forall c, fst (fst (update_trade b m p v ms)) = Some c -> 0 < low c /\ 0 < close c) /\
  (forall m' c, snd (update_trade b m p v ms) m' = Some c -> 0 < low c /\ 0 < close c).
Proof.
  intros Hb Hp. unfold update_trade.
  destruct (b m) as [cur|] eqn:Hbm.
  - pose proof (Hb m cur Hbm) as [Hl Hc].
    destruct (Z.eqb (time cur) (_bucket (ms * 1000))); simpl.
    + split; [discriminate|]. intros m' c. unfold set.
      destruct (String.eqb m' m); [|apply Hb].
      intros H. injection H as <-. simpl. split; [|exact Hp].
      unfold py_min. destruct (Qle_bool (low cur) p); assumption.
    + split; [intros c H; injection H as <-; split; assumption|].
      intros m' c. unfold set. destruct (String.eqb m' m); [|apply Hb].
      intros H. injection H as <-. simpl. split; assumption.
  - simpl. split; [discriminate|]. intros m' c. unfold set.
    destruct (String.eqb m' m); [|apply Hb].
    intros H. injection H as <-. simpl. split; assumption.
Qed.

(** Fed trade messages of subscribed markets with positive prices, the
    realtime bot never raises: the ledger keeps the AccountState invariant,
    and [open_market] is set exactly when a position is open. *)
Theorem realtime_never_raises predict ticks :
  Forall (fun t => 0 < t_price t /\ In (t_market t) MARKETS) ticks ->
  exists bot, handle_all predict bot_init ticks = Some bot /\
    account_inv (b_paper bot) /\
    (open_market bot <> None <-> 0 < position (b_paper bot)).
Proof.
  intros Hts.
  assert (Hgen : forall ts bot, bot_inv bot ->
            Forall (fun t => 0 < t_price t /\ In (t_market t) MARKETS) ts ->
            exists bot', handle_all predict bot ts = Some bot' /\ bot_inv bot').
  { induction ts as [|t ts IH]; intros bot Hi Hall.
    - exists bot. split; [reflexivity | exact Hi].
    - apply Forall_cons_iff in Hall as [[Hp Hin] Hall].
      simpl. unfold handle_trade_message.
      pose proof Hi as [Hs [Ha [Hom [Htp [Hb Hh]]]]].
      destruct (update_pos (b_builder bot) (t_market t) (t_price t) (t_vol t) (t_ms t) Hb Hp)
        as [Hcl Hb'].
      destruct (update_trade (b_builder bot) (t_market t) (t_price t) (t_vol t) (t_ms t))
        as [[closed cur] b'] eqn:Eu.
      simpl in Hcl, Hb'.
      set (bot1 := mkBot (b_risk bot) (b_paper bot) b' (b_history bot)
                         (open_market bot) (open_tp bot) (open_sl bot)).
      assert (Hi1 : bot_inv bot1) by exact (conj Hs (conj Ha (conj Hom (conj Htp (conj Hb' Hh))))).
      destruct closed as [c|].
      + destruct (Hcl c eq_refl) as [Hlc Hcc].
        destruct (on_candle_close_ok predict bot1 (t_market t) c Hi1 Hin Hlc Hcc)
          as [bot2 [-> Hi2]].
        apply IH; assumption.
      + apply IH; assumption. }
  destruct (Hgen ticks bot_init) as [bot [Hr [[Hinv _] [_ [Hom _]]]]].
  - refine (conj _ (conj _ (conj _ (conj _ (conj _ _))))); simpl.
    + unfold strong_inv, account_inv; simpl.
      split; [|split; [discriminate | reflexivity]].
      split; [lra|]. split; [lra|]. split; split; intros H; try lra; congruence.
    + intros sob H. discriminate.
    + split; [intros H; exfalso; apply H; reflexivity | intros H; lra].
    + left. reflexivity.
    + intros m c H. discriminate.
    + intros m Hm. simpl in Hm. destruct Hm as [<- | []]. simpl. discriminate.
  - exact Hts.
  - exists bot. split; [exact Hr|]. split; [exact Hinv | exact Hom].
Qed.

End RealtimeProofs.

(** * Concrete instances of the theorems *)
Module Witnesses.
Import Paper PaperProofs PaperInv RiskProofs SizerProofs CandleProofs.

(** A Long ledger: 1000 spent at price 100 with fee 0.001. *)
Definition long_at_100 : PaperTrader :=
  mkPaper 1000 0 (999 # 100) (Some 100) (Some 1000) (1 # 1000) [].

Lemma check_tp_sl_tie_sells_at_stop_witness :
  exists s' pnl,
    check_tp_sl long_at_100 102 99 0 (15 # 1000) (9 # 1000) = Some s' /\
    history s' = history long_at_100 ++
                   [SELL 0 (100 * (1 - (9 # 1000))) pnl (balance s') "SL_TIE"] /\
    100 * (1 - (9 # 1000)) == 991 # 10.
Proof.
  assert (H1 : 0 < position long_at_100) by reflexivity.
  assert (H2 : entry_price long_at_100 = Some 100) by reflexivity.
  exact (proj2 check_tp_sl_tie_sells_at_stop long_at_100 0%Z H1 H2).
Defined.

Lemma buy_long_sell_flat_noop_witness :
  buy long_at_100 50 0 (Some 10) = Some long_at_100 /\
  sell (Paper.init 1000 (1 # 1000)) 50 0 "EXIT" = Some (Paper.init 1000 (1 # 1000)).
Proof.
  split.
  - apply (proj1 buy_long_sell_flat_noop). reflexivity.
  - apply (proj2 buy_long_sell_flat_noop). reflexivity.
Defined.

Lemma buy_default_spends_all_witness :
  exists s',
    buy (Paper.init 1000000 (1 # 1000)) 100 0 None = Some s' /\
    entry_notional s' = Some 1000000 /\
    entry_price s' = Some 100 /\
    balance s' == 0 /\
    position s' == 1000000 * (1 - (1 # 1000)) / 100.
Proof.
  apply (buy_default_spends_all (Paper.init 1000000 (1 # 1000)) 100 0%Z);
    vm_compute; reflexivity.
Defined.

Lemma ledger_invariant_preserved_witness :
  exists s,
    run (Paper.init 1000000 (1 # 1000))
        [OpBuy 100 0 None; OpCheck 102 99 1 (15 # 1000) (9 # 1000)] = Some s /\
    account_inv s.
Proof.
  apply ledger_invariant_preserved.
  - vm_compute. discriminate.
  - reflexivity.
  - repeat constructor; vm_compute; discriminate.
Defined.

(** A RiskEngine(3.0, 3, 60) anchored on day 0 with a balance of 1000000. *)
Definition anchored : Risk.RiskEngine :=
  Risk.mkRisk 3 3 60 (Some 1000000) (Some 0%Z) 0 None.

Lemma streak_cooldown_blocks_witness :
  Risk.cooldown_until (Risk.record_all anchored ([(-1, 10%Z); (-1, 20%Z)] ++ [(-1, 30%Z)]))
    = Some (add_minutes 30 60) /\
  Risk.can_trade 1000000 40
    (Risk.record_all anchored ([(-1, 10%Z); (-1, 20%Z)] ++ [(-1, 30%Z)]))
    = (Some false, Risk.record_all anchored ([(-1, 10%Z); (-1, 20%Z)] ++ [(-1, 30%Z)])).
Proof.
  assert (H0 : (0 <= Risk.consecutive_losses anchored)%Z) by (vm_compute; discriminate).
  assert (H1 : Forall (fun r => fst r < 0) ([(-1, 10%Z); (-1, 20%Z)] ++ [(-1, 30%Z)]))
    by (repeat constructor).
  assert (H2 : (Risk.max_consecutive_losses anchored <=
                Z.of_nat (List.length ([(-1, 10%Z); (-1, 20%Z)] ++ [(-1, 30%Z)])))%Z)
    by (vm_compute; discriminate).
  pose proof (proj2 (proj2 (proj2 streak_cooldown_blocks)) anchored
                [(-1, 10%Z); (-1, 20%Z)] (-1) 30%Z H0 H1 H2) as H.
  cbv zeta in H. destruct H as [Hc Hct].
  split; [exact Hc|].
  apply Hct; vm_compute; reflexivity.
Defined.

(** The engine anchored on day 0 after two losses, cooling down until an
    hour into day 1. *)
Definition cooling_day0 : Risk.RiskEngine :=
  Risk.mkRisk 3 3 60 (Some 1000000) (Some 0%Z) 2 (Some (US_PER_DAY + 60 * US_PER_MINUTE)%Z).

(** At 00:01 on day 1, with a balance 5% below the old anchor, the call
    rolls over: the streak, the cooldown and the old anchor are gone and
    trading is allowed. *)
Lemma can_trade_rollover_resets_witness :
  snd (Risk.can_trade 950000 (US_PER_DAY + US_PER_MINUTE) cooling_day0) =
    Risk.reset_state cooling_day0 950000 (US_PER_DAY + US_PER_MINUTE) /\
  Risk.consecutive_losses (Risk.reset_state cooling_day0 950000 (US_PER_DAY + US_PER_MINUTE))
    = 0%Z /\
  Risk.cooldown_until (Risk.reset_state cooling_day0 950000 (US_PER_DAY + US_PER_MINUTE))
    = None /\
  Risk.can_trade 950000 (US_PER_DAY + US_PER_MINUTE) cooling_day0 =
    (Some true, Risk.reset_state cooling_day0 950000 (US_PER_DAY + US_PER_MINUTE)).
Proof.
  assert (Hd : Risk.current_day cooling_day0 <> Some (date (US_PER_DAY + US_PER_MINUTE)))
    by (vm_compute; discriminate).
  destruct (can_trade_rollover_resets cooling_day0 950000 (US_PER_DAY + US_PER_MINUTE) Hd)
    as [H1 [_ [H3 [H4 [_ H6]]]]].
  split; [exact H1|]. split; [exact H3|]. split; [exact H4|].
  rewrite H6. vm_compute. reflexivity.
Defined.

Lemma size_zero_iff_below_min_witness :
  exists r,
    Sizer.size_from_stop_pct Sizer.default_sizer 1000000 (9 # 1000) (Some 100) = Some r /\
    (r = Sizer.zero_result <->
     9 # 1000 <= 0 \/
     Sizer._clamp (Sizer.unclamped Sizer.default_sizer 1000000 (9 # 1000)) 0
       (1000000 * (Sizer.max_allocation_pct Sizer.default_sizer / 100))
       < Sizer.min_order_krw Sizer.default_sizer).
Proof.
  apply size_zero_iff_below_min.
  - reflexivity.
  - intros pr H. injection H as <-. vm_compute. discriminate.
Defined.

Lemma sizing_monotone_capped_witness :
  Sizer.spend_amount (Sizer.with_risk Sizer.default_sizer (1 # 10)) 1000000 (9 # 1000)
    <= Sizer.spend_amount (Sizer.with_risk Sizer.default_sizer (3 # 10)) 1000000 (9 # 1000) /\
  Sizer.spend_amount Sizer.default_sizer 1000000 (2 # 100)
    <= Sizer.spend_amount Sizer.default_sizer 1000000 (9 # 1000) /\
  Sizer.spend_amount Sizer.default_sizer 1000000 (9 # 1000)
    <= 1000000 * (Sizer.max_allocation_pct Sizer.default_sizer / 100).
Proof.
  destruct sizing_monotone_capped as [Hr [Hs [Hc _]]].
  split; [apply Hr; vm_compute; discriminate|].
  split; [apply Hs; vm_compute; first [reflexivity | discriminate]|].
  apply Hc; vm_compute; discriminate.
Defined.

Lemma candles_ordered_ohlc_witness :
  StronglySorted Z.lt (map Candles.time (Candles.closed_candles (fst (Candles.feed Candles.empty
    [Candles.mkTick "KRW-BTC" 100 1 0; Candles.mkTick "KRW-BTC" 101 1 100000;
     Candles.mkTick "KRW-BTC" 99 1 400000; Candles.mkTick "KRW-BTC" 98 1 700000])))).
Proof.
  apply (proj2 candles_ordered_ohlc "KRW-BTC"%string).
  - repeat constructor.
  - repeat constructor; vm_compute; discriminate.
Defined.

End Witnesses.

(** * Concrete instances of the further theorems *)
Module MoreWitnesses.
Import Paper Replay DrawdownProofs Dashboard DashboardProofs Labels LabelProofs
       LedgerProofs RiskExtra SizingExtra GuardExtra Candles CandleExtra Bot
       BotProofs RealtimeProofs.

(** An equity curve that peaks at 100, falls to 80 and recovers. *)
Definition curve_demo : list Q := [100; 90; 95; 80; 120].

Lemma max_drawdown_pct_le_100_witness :
  max_drawdown_pct curve_demo <= 100 /\ max_drawdown_pct curve_demo == 20.
Proof.
  split.
  - apply max_drawdown_pct_le_100.
    repeat constructor; vm_compute; discriminate.
  - vm_compute. reflexivity.
Defined.

Lemma max_drawdown_pct_sorted_witness :
  max_drawdown_pct [1; 2; 2; 5] = 0.
Proof.
  apply max_drawdown_pct_sorted.
  repeat constructor; vm_compute; discriminate.
Defined.

Lemma max_drawdown_pct_ge_drop_witness :
  (100 - 80) / 100 * 100 <= max_drawdown_pct ([90] ++ 100 :: [95; 80; 120]).
Proof.
  apply (max_drawdown_pct_ge_drop [90] 100 [95; 80; 120] 80).
  - reflexivity.
  - right. left. reflexivity.
  - vm_compute. discriminate.
Defined.

(** A ledger with a round trip closed at 1000 and a second one closed at 900. *)
Definition history_demo : list Trade :=
  [BUY 0 100 (999 # 100) 1000 1 0; SELL 1 110 90 1000 "TP";
   BUY 2 110 (9 # 1) 1000 1 0; SELL 3 100 (-100) 900 "SL"].

Lemma dashboard_drawdown_agrees_witness :
  max_drawdown history_demo =
    Some (Replay.max_drawdown_pct (sell_balances history_demo)).
Proof.
  apply dashboard_drawdown_agrees.
  apply Forall_forall. intros v Hv. vm_compute in Hv.
  destruct Hv as [<- | [<- | []]]; reflexivity.
Defined.

(** A long position of 9.99 units entered at 100. *)
Definition long_100 : PaperTrader :=
  mkPaper 1000 0 (999 # 100) (Some 100) (Some 1000) (1 # 1000) [].

(** Two bars after the entry: the second reaches the take-profit price 101.5. *)
Definition bars_demo : list Bar := [mkBar 1 100 101 (995 # 10); mkBar 2 101 102 100].

Lemma label_matches_exit_witness :
  exists s', hold long_100 (15 # 1000) (9 # 1000) bars_demo = Some s' /\
    match label_of 100 (15 # 1000) (9 # 1000) bars_demo with
    | None => s' = long_100
    | Some l =>
        position s' = 0 /\
        exists t p pnl bal r,
          history s' = history long_100 ++ [SELL t p pnl bal r] /\
          ((l = 1%Z /\ r = "TP"%string) \/
           (l = 0%Z /\ (r = "SL"%string \/ r = "SL_TIE"%string)))
    end.
Proof.
  apply label_matches_exit; reflexivity.
Defined.

(** Five bars after a close of 100: row 0 reaches the take-profit first,
    row 1 the stop. *)
Definition bars_lab : list Bar :=
  [mkBar 0 100 100 100; mkBar 1 100 102 (995 # 10); mkBar 2 100 100 98;
   mkBar 3 100 100 100; mkBar 4 100 100 100].

Lemma create_tp_sl_labels_rows_witness :
  create_tp_sl_labels bars_lab (15 # 1000) (9 # 1000) (-2) = None /\
  (let n := Z.to_nat (Z.of_nat (List.length bars_lab) - 2 - 1) in
   exists out idx,
     create_tp_sl_labels bars_lab (15 # 1000) (9 # 1000) 2 = Some out /\
     StronglySorted lt idx /\
     Forall2 (fun i row => (i < n)%nat /\ nth_error bars_lab i = Some (fst row) /\
                label_at bars_lab (15 # 1000) (9 # 1000) (Z.to_nat 2) i = Some (snd row))
             idx out /\
     (forall i l, (i < n)%nat ->
        label_at bars_lab (15 # 1000) (9 # 1000) (Z.to_nat 2) i = Some l -> In i idx) /\
     (List.length out <= n)%nat) /\
  create_tp_sl_labels bars_lab (15 # 1000) (9 # 1000) 2 =
    Some [(mkBar 0 100 100 100, 1%Z); (mkBar 1 100 102 (995 # 10), 0%Z)].
Proof.
  split; [apply (proj1 (create_tp_sl_labels_rows bars_lab (15 # 1000) (9 # 1000) (-2))); lia|].
  split; [apply (proj2 (create_tp_sl_labels_rows bars_lab (15 # 1000) (9 # 1000) 2)); lia|].
  vm_compute. reflexivity.
Defined.

Definition ops_demo : list Op :=
  [OpBuy 100 0 None; OpCheck 102 99 1 (15 # 1000) (9 # 1000); OpSell 50 2 "EXIT"].

Lemma run_history_append_only_witness :
  exists s', run (Paper.init 1000000 (1 # 1000)) ops_demo = Some s' /\
    initial_balance s' = initial_balance (Paper.init 1000000 (1 # 1000)) /\
    fee s' = fee (Paper.init 1000000 (1 # 1000)) /\
    exists ext, history s' = history (Paper.init 1000000 (1 # 1000)) ++ ext /\
      (List.length ext <= List.length ops_demo)%nat.
Proof.
  eexists. split; [vm_compute; reflexivity|].
  apply (run_history_append_only ops_demo (Paper.init 1000000 (1 # 1000))).
  vm_compute. reflexivity.
Defined.

Lemma round_trip_pnl_witness :
  exists s1 s2 pnl,
    buy (Paper.init 1000 (1 # 1000)) 100 0 (Some 500) = Some s1 /\
    sell s1 110 1 "EXIT" = Some s2 /\
    history s2 = history (Paper.init 1000 (1 # 1000)) ++
      [BUY 0 100 (position s1) 500 (500 * fee (Paper.init 1000 (1 # 1000)))
           (balance (Paper.init 1000 (1 # 1000)) - 500);
       SELL 1 110 pnl (balance s2) "EXIT"] /\
    pnl == 500 * ((1 - fee (Paper.init 1000 (1 # 1000))) *
                  (1 - fee (Paper.init 1000 (1 # 1000))) * 110 / 100 - 1) /\
    balance s2 == balance (Paper.init 1000 (1 # 1000)) + pnl.
Proof.
  apply round_trip_pnl; vm_compute; first [reflexivity | discriminate].
Defined.

(** A RiskEngine(3.0, 3, 60) anchored on day 0 with 1000000, no losses yet. *)
Definition anchored_day0 : Risk.RiskEngine :=
  Risk.mkRisk 3 3 60 (Some 1000000) (Some 0%Z) 0 None.

Lemma daily_loss_blocks_witness :
  Risk.can_trade 970000 0 anchored_day0 = (Some false, anchored_day0).
Proof.
  apply (daily_loss_blocks anchored_day0 970000 0%Z 1000000);
    vm_compute; first [reflexivity | discriminate].
Defined.

(** The same engine after three losses, cooling down until time 100. *)
Definition cooling : Risk.RiskEngine :=
  Risk.mkRisk 3 3 60 (Some 1000000) (Some 0%Z) 3 (Some 100%Z).

Lemma cooldown_lifts_at_deadline_witness :
  Risk.can_trade 1000000 200 cooling = (Some true, cooling).
Proof.
  apply (cooldown_lifts_at_deadline cooling 1000000 200%Z 100%Z);
    vm_compute; first [reflexivity | discriminate].
Defined.

(** A loss, a win, then three losses in a row on the engine anchored on
    day 0. *)
Definition results_demo : list (Q * Z) :=
  [(-1, 10%Z); (2, 20%Z); (-1, 30%Z); (-1, 40%Z); (-1, 50%Z)].

Lemma record_all_streak_witness :
  (let s' := Risk.record_all anchored_day0 results_demo in
   Risk.max_daily_loss_pct s' = Risk.max_daily_loss_pct anchored_day0 /\
   Risk.max_consecutive_losses s' = Risk.max_consecutive_losses anchored_day0 /\
   Risk.cooldown_minutes s' = Risk.cooldown_minutes anchored_day0 /\
   Risk.start_of_day_balance s' = Risk.start_of_day_balance anchored_day0 /\
   Risk.current_day s' = Risk.current_day anchored_day0 /\
   (exists pre post, results_demo = pre ++ post /\ Forall (fun r => fst r < 0) post /\
      ((pre = [] /\
        Risk.consecutive_losses s' =
          (Risk.consecutive_losses anchored_day0 + Z.of_nat (List.length post))%Z) \/
       (exists pre' r, pre = pre' ++ [r] /\ 0 <= fst r /\
        Risk.consecutive_losses s' = Z.of_nat (List.length post)))) /\
   (Risk.cooldown_until s' = Risk.cooldown_until anchored_day0 \/
    exists pnl now, In (pnl, now) results_demo /\ pnl < 0 /\
      Risk.cooldown_until s' =
        Some (add_minutes now (Risk.cooldown_minutes anchored_day0)))) /\
  Risk.consecutive_losses (Risk.record_all anchored_day0 results_demo) = 3%Z /\
  Risk.cooldown_until (Risk.record_all anchored_day0 results_demo) = Some (add_minutes 50 60).
Proof.
  split; [|split; vm_compute; reflexivity].
  apply record_all_streak. vm_compute. discriminate.
Defined.

(** A sizer whose allocation cap is the whole equity, so that the cap does
    not bind at a 0.9% stop. *)
Definition full_alloc : Sizer.PositionSizer := Sizer.mkSizer (30 # 100) 100 5000 (10 # 100).

Definition full_alloc_result : Sizer.PositionSizeResult :=
  match Sizer.size_from_stop_pct full_alloc 1000000 (9 # 1000) (Some 100) with
  | Some r => r
  | None => Sizer.zero_result
  end.

Lemma risk_within_budget_witness :
  Sizer.size_from_stop_pct full_alloc 1000000 (9 # 1000) (Some 100) = Some full_alloc_result /\
  Sizer.risk_krw full_alloc_result <= 1000000 * (Sizer.risk_per_trade_pct full_alloc / 100) /\
  Sizer.risk_krw full_alloc_result == 1000000 * (Sizer.risk_per_trade_pct full_alloc / 100).
Proof.
  assert (E : Sizer.size_from_stop_pct full_alloc 1000000 (9 # 1000) (Some 100)
                = Some full_alloc_result) by (vm_compute; reflexivity).
  assert (Hb : 0 <= 1000000 * (Sizer.risk_per_trade_pct full_alloc / 100))
    by (vm_compute; discriminate).
  destruct (risk_within_budget full_alloc 1000000 (9 # 1000) 100 full_alloc_result Hb E)
    as [H1 H2].
  split; [exact E|]. split; [exact H1|].
  apply H2; vm_compute; first [reflexivity | discriminate].
Defined.

Lemma allowed_entry_sized_witness :
  exists d,
    fst (Guard.evaluate_entry Sizer.default_sizer 1000000 0 100 (Some (9 # 1000)) None 1
           (Risk.init 3 3 60)) = Some d /\
    Guard.allowed d = true /\
    fst (Risk.can_trade 1000000 0 (Risk.init 3 3 60)) = Some true /\
    exists sz, Guard.sizing d = Some sz /\
      0 < Sizer.krw_to_spend sz /\
      Sizer.min_order_krw Sizer.default_sizer <= Sizer.krw_to_spend sz /\
      Sizer.krw_to_spend sz <= 1000000 * (Sizer.max_allocation_pct Sizer.default_sizer / 100).
Proof.
  eexists. split; [vm_compute; reflexivity|]. split; [reflexivity|].
  apply (allowed_entry_sized Sizer.default_sizer 1000000 0%Z 100 (Some (9 # 1000)) None 1
           (Risk.init 3 3 60)).
  - vm_compute. reflexivity.
  - reflexivity.
Defined.

(** Ticks of two markets interleaved; the first builder already holds an
    ETH candle. *)
Definition ticks_mixed : list Tick :=
  [mkTick "KRW-BTC"%string 100 1 0; mkTick "KRW-ETH"%string 5 2 1000;
   mkTick "KRW-BTC"%string 101 1 400000; mkTick "KRW-ETH"%string 6 1 500000].

Definition eth_builder : Builder := set empty "KRW-ETH"%string (mkCandle 0 4 4 4 4 1).

Lemma feed_market_independent_witness :
  map snd (filter (fun p => String.eqb (t_market (fst p)) "KRW-BTC"%string)
             (combine ticks_mixed (fst (feed eth_builder ticks_mixed))))
    = fst (feed empty (for_market "KRW-BTC"%string ticks_mixed)) /\
  snd (feed eth_builder ticks_mixed) "KRW-BTC"%string =
    snd (feed empty (for_market "KRW-BTC"%string ticks_mixed)) "KRW-BTC"%string.
Proof.
  apply feed_market_independent. reflexivity.
Defined.

(** A builder holding a BTC candle of bucket 00:00 and an ETH candle; the
    ticks fall in the 00:05 bucket. *)
Definition btc_0000 : Candle := mkCandle 0 95 96 94 95 3.

Definition held_builder : Builder := set eth_builder "KRW-BTC"%string btc_0000.

Lemma candle_aggregates_bucket_witness :
  closed_candles (fst (feed held_builder
    (mkTick "KRW-BTC"%string 100 1 300000 ::
       [mkTick "KRW-BTC"%string 101 2 301000; mkTick "KRW-BTC"%string 99 1 302000])))
    = [btc_0000] /\
  snd (feed held_builder
    (mkTick "KRW-BTC"%string 100 1 300000 ::
       [mkTick "KRW-BTC"%string 101 2 301000; mkTick "KRW-BTC"%string 99 1 302000]))
    "KRW-BTC"%string =
    Some (mkCandle 300000000 100 (fold_left py_max [101; 99] 100)
            (fold_left py_min [101; 99] 100) (last [101; 99] 100) (fold_left Qplus [2; 1] 1)).
Proof.
  apply (candle_aggregates_bucket held_builder "KRW-BTC"%string 300000000%Z
           (mkTick "KRW-BTC"%string 100 1 300000)
           [mkTick "KRW-BTC"%string 101 2 301000; mkTick "KRW-BTC"%string 99 1 302000]).
  - intros c H. vm_compute in H. injection H as <-. discriminate.
  - repeat constructor.
Defined.

(** Three 5-minute candles with positive prices. *)
Definition candles_demo : list Candle :=
  [mkCandle 0 100 101 99 100 1; mkCandle 300000000 100 102 99 101 1;
   mkCandle 600000000 101 104 100 103 1].

Definition always_up (_ : list Candle) : option Q := Some 1.

Lemma replay_never_raises_witness :
  exists st,
    replay_run always_up (60 # 100) (15 # 1000) (9 # 1000) 600 (replay_init 1000000)
      candles_demo = Some st /\
    account_inv (r_paper st) /\
    (forall sob, Risk.start_of_day_balance (r_risk st) = Some sob -> 0 < sob).
Proof.
  apply replay_never_raises.
  - vm_compute. discriminate.
  - vm_compute. discriminate.
  - repeat constructor.
Defined.

Lemma replay_window_and_curve_witness :
  exists st,
    replay_run always_up (60 # 100) (15 # 1000) (9 # 1000) 2 (replay_init 1000000)
      candles_demo = Some st /\
    List.length (r_equity st) = List.length candles_demo /\
    List.length (r_history st) = Nat.min 2 (List.length candles_demo) /\
    exists pre, candles_demo = pre ++ r_history st.
Proof.
  eexists. split; [vm_compute; reflexivity|].
  apply (replay_window_and_curve always_up (60 # 100) (15 # 1000) (9 # 1000) 2
           (replay_init 1000000) candles_demo).
  - reflexivity.
  - reflexivity.
  - vm_compute. reflexivity.
Defined.

Definition always_up_rt (_ : string) (_ : list Candle) : option Q := Some 1.

Definition ticks_btc : list Tick :=
  [mkTick "KRW-BTC"%string 100 1 0; mkTick "KRW-BTC"%string 101 1 400000;
   mkTick "KRW-BTC"%string 102 1 700000].

Lemma realtime_never_raises_witness :
  exists bot, handle_all always_up_rt bot_init ticks_btc = Some bot /\
    account_inv (b_paper bot) /\
    (open_market bot <> None <-> 0 < position (b_paper bot)).
Proof.
  apply realtime_never_raises.
  repeat constructor.
Defined.

End MoreWitnesses.
